(** * go-thoughts-backend: the Firestore listener and the poll monitor

    A shallow embedding of [main.go].  The program has two workers that
    share three package-level variables guarded by one [sync.Mutex]:

    - the message worker drains the backlog of unprocessed user messages
      ([markExistingMessagesAsProcessed]) and then answers every new message
      ([listenForNewUserMessages]);
    - the monitor worker ([monitorAndRespond]) refreshes the poll summary on
      every tick and decides whether to emit a host prompt.

    Firestore, the Gemini model and the clock are external.  They are
    modelled by an environment [Env] of oracles indexed by the number of
    external calls made so far, so every theorem below holds for every
    behaviour of these collaborators. *)

From Stdlib Require Import ZArith Lia Ascii String.
From stdpp Require Import base option list gmap strings fin_maps pretty.

Local Open Scope string_scope.
Local Open Scope Z_scope.

(** ** Package [time] *)

(** A [time.Time] is an instant on one time line, counted in nanoseconds
    from the zero [Time] (the wall clock and the monotonic clock of Go are
    taken to agree); a [time.Duration] is a signed 64-bit count of
    nanoseconds.  [Time.Sub] saturates at the ends of that range. *)
Module time.

Definition Time := Z.
Definition Duration := Z.

Definition Nanosecond : Duration := 1.
Definition Second : Duration := 1000000000.

Definition minDuration : Duration := - 2 ^ 63.
Definition maxDuration : Duration := 2 ^ 63 - 1.

(** The zero value of [time.Time], the initial value of the package
    variables [lastUserMessage] and [lastResponseTime]. *)
Definition zero : Time := 0.

Definition Sub (t u : Time) : Duration :=
  let d := t - u in
  if d >? maxDuration then maxDuration
  else if d <? minDuration then minDuration
  else d.

End time.

(** ** Errors *)

Module codes.

(** [google.golang.org/grpc/codes] *)
Inductive Code :=
| OK | Canceled | Unknown | InvalidArgument | DeadlineExceeded | NotFound
| AlreadyExists | PermissionDenied | ResourceExhausted | FailedPrecondition
| Aborted | OutOfRange | Unimplemented | Internal | Unavailable | DataLoss
| Unauthenticated.

#[global] Instance Code_eq_dec : EqDecision Code.
Proof. solve_decision. Defined.

End codes.

(** A Go [error] value: a gRPC status error, any other library error, or an
    error wrapped by [fmt.Errorf("<prefix>: %w", cause)].  The Go value [nil]
    is [None : option error]. *)
Inductive error :=
| StatusError (c : codes.Code) (msg : string)
| PlainError (msg : string)
| Errorf (prefix : string) (cause : error).

#[global] Instance error_eq_dec : EqDecision error.
Proof. solve_decision. Defined.

(** [err.Error()] *)
Fixpoint Error (e : error) : string :=
  match e with
  | StatusError _ msg => msg
  | PlainError msg => msg
  | Errorf prefix cause => prefix +:+ ": " +:+ Error cause
  end.

Module status.

(** [status.Code]: the code of a status error, also through [%w]
    wrapping; [OK] for [nil]; [Unknown] for anything else. *)
Fixpoint code_of (e : error) : codes.Code :=
  match e with
  | StatusError c _ => c
  | PlainError _ => codes.Unknown
  | Errorf _ cause => code_of cause
  end.

Definition Code (err : option error) : codes.Code :=
  match err with
  | None => codes.OK
  | Some e => code_of e
  end.

End status.

(** ** Documents *)

Definition nl : string := String "010"%char EmptyString.

Record Message := {
  ID : string;
  Message_ : string;
  Timestamp : time.Time;
  Processed : bool;
}.

Record PollOption := {
  OpText : string;
  Label : string;
  Voters : list string;
}.

Record PollQuestion := {
  Question : string;
  Options : gmap string PollOption;
}.

(** What the program uses of a [firestore.DocumentSnapshot] of a message
    collection: [doc.Ref.ID] and the fields that [doc.DataTo(&msg)] decodes. *)
Record DocumentSnapshot := {
  Ref_ID : string;
  Data : Message;
}.

(** A [firestore.QuerySnapshot]: the documents its iterator yields. *)
Definition QuerySnapshot := list DocumentSnapshot.

(** ** The world *)

(** External effects, in the order they happen: a call of the model made by
    [generateResponse] with these arguments, a write or an update of a
    document, a line of output; each with the error it came back with. *)
Inductive Event :=
| Generate (userMessage conversationSummary : string) (err : option error)
| DocSet (collection id : string) (data : Message) (err : option error)
| DocUpdate (collection id : string) (err : option error)
| Print (text : string).

#[global] Instance Message_eq_dec : EqDecision Message.
Proof. solve_decision. Defined.

#[global] Instance Event_eq_dec : EqDecision Event.
Proof. solve_decision. Defined.

(** The package variables of [main.go] (lines 41-47), the Firestore message
    collections (collection name, then document id), the number of external
    calls made so far and the effects so far. *)
Record World := {
  store : gmap string (gmap string Message);
  lastUserMessage : time.Time;
  conversationSummary : string;
  lastResponseTime : time.Time;
  mu : bool;
  calls : nat;
  events : list Event;
}.

(** The external collaborators.  The [n]-th external call reads the clock
    as [now n], fails with [fault n] when that is not [None], and so on. *)
Record Env := {
  now : nat → time.Time;
  fault : nat → option error;
  gemini : nat → string → string;
  pollDoc : nat → string → string → PollQuestion;
  rangeOrder : nat → gmap string PollOption → list (string * PollOption);
  queryOrder : nat → list (string * Message) → list (string * Message);
}.

(** What is assumed of Go's [range] over a map and of a Firestore query:
    every entry is visited once, in an order the program does not choose. *)
Definition fair (E : Env) : Prop :=
  (∀ n (m : gmap string PollOption), rangeOrder E n m ≡ₚ map_to_list m) ∧
  (∀ n (l : list (string * Message)), queryOrder E n l ≡ₚ l).

(** The clock never runs backwards. *)
Definition monotone (E : Env) : Prop :=
  ∀ i j : nat, (i ≤ j)%nat → now E i ≤ now E j.

(** ** Control flow *)

(** A statement of a function whose return type is [R] either falls through
    with a value, executes [return r], or blocks forever. *)
Inductive Flow (R A : Type) :=
| Next (a : A)
| Return (r : R)
| Block.
Arguments Next {R A} a.
Arguments Return {R A} r.
Arguments Block {R A}.

Definition Body (R A : Type) : Type := World → Flow R A * World.

Definition ret {R A} (a : A) : Body R A := λ w, (Next a, w).

Definition return_ {R A} (r : R) : Body R A := λ w, (Return r, w).

Definition block {R A} : Body R A := λ w, (Block, w).

Definition bind {R A B} (m : Body R A) (k : A → Body R B) : Body R B :=
  λ w, match m w with
       | (Next a, w') => k a w'
       | (Return r, w') => (Return r, w')
       | (Block, w') => (Block, w')
       end.

(** A call: the callee's [return r] is the value of the call. *)
Definition call {R R'} (f : Body R R) : Body R' R :=
  λ w, match f w with
       | (Next r, w') | (Return r, w') => (Next r, w')
       | (Block, w') => (Block, w')
       end.

Declare Scope go_scope.
Delimit Scope go_scope with go.
Notation "x <- m ; k" := (bind m (λ x, k))
  (at level 20, m at level 100, k at level 200, only parsing) : go_scope.
Notation "' p <- m ; k" := (bind m (λ p, k))
  (at level 20, p pattern, m at level 100, k at level 200, only parsing) : go_scope.
Notation "m ;; k" := (bind m (λ _, k))
  (at level 100, k at level 200, only parsing, right associativity) : go_scope.
Local Open Scope go_scope.

(** Reading and writing the world. *)
Definition gets {R A} (f : World → A) : Body R A := λ w, (Next (f w), w).
Definition modify {R} (f : World → World) : Body R unit := λ w, (Next tt, f w).

Definition set_store (s : gmap string (gmap string Message)) (w : World) : World :=
  {| store := s; lastUserMessage := lastUserMessage w;
     conversationSummary := conversationSummary w;
     lastResponseTime := lastResponseTime w; mu := mu w; calls := calls w;
     events := events w |}.

Definition set_lastUserMessage (t : time.Time) (w : World) : World :=
  {| store := store w; lastUserMessage := t;
     conversationSummary := conversationSummary w;
     lastResponseTime := lastResponseTime w; mu := mu w; calls := calls w;
     events := events w |}.

Definition set_conversationSummary (s : string) (w : World) : World :=
  {| store := store w; lastUserMessage := lastUserMessage w;
     conversationSummary := s;
     lastResponseTime := lastResponseTime w; mu := mu w; calls := calls w;
     events := events w |}.

Definition set_lastResponseTime (t : time.Time) (w : World) : World :=
  {| store := store w; lastUserMessage := lastUserMessage w;
     conversationSummary := conversationSummary w;
     lastResponseTime := t; mu := mu w; calls := calls w;
     events := events w |}.

Definition set_mu (b : bool) (w : World) : World :=
  {| store := store w; lastUserMessage := lastUserMessage w;
     conversationSummary := conversationSummary w;
     lastResponseTime := lastResponseTime w; mu := b; calls := calls w;
     events := events w |}.

Definition set_calls (n : nat) (w : World) : World :=
  {| store := store w; lastUserMessage := lastUserMessage w;
     conversationSummary := conversationSummary w;
     lastResponseTime := lastResponseTime w; mu := mu w; calls := n;
     events := events w |}.

Definition emit (e : Event) (w : World) : World :=
  {| store := store w; lastUserMessage := lastUserMessage w;
     conversationSummary := conversationSummary w;
     lastResponseTime := lastResponseTime w; mu := mu w; calls := calls w;
     events := events w ++ [e] |}.

(** [client.Collection(c)]: the documents of a message collection. *)
Definition Collection (c : string) (w : World) : gmap string Message :=
  default ∅ (store w !! c).

Definition markProcessed (m : Message) : Message :=
  {| ID := ID m; Message_ := Message_ m; Timestamp := Timestamp m;
     Processed := true |}.

Definition snapshotOf (p : string * Message) : DocumentSnapshot :=
  {| Ref_ID := p.1; Data := p.2 |}.

(** How a worker goroutine of [main] ends: its function returns, or
    [log.Fatalf] prints a line and exits the process. *)
Inductive Exit :=
| Finished
| Fatal (line : string).

(** ** The program *)

Section Program.

Context (E : Env).

(** *** External calls *)

Definition external {R} : Body R nat :=
  λ w, (Next (calls w), set_calls (S (calls w)) w).

(** [time.Now()] *)
Definition time_Now {R} : Body R time.Time :=
  n <- external ; ret (now E n).

(** A library call of which the program only uses the error:
    [firebase.NewApp], [app.Firestore], [iter.Next], [doc.DataTo]. *)
Definition library {R} : Body R (option error) :=
  n <- external ; ret (fault E n).

(** [mu.Lock()] blocks while the mutex is held; [mu.Unlock()]. *)
Definition mu_Lock {R} : Body R unit :=
  λ w, if mu w then (Block, w) else (Next tt, set_mu true w).

Definition mu_Unlock {R} : Body R unit := modify (set_mu false).

(** [fmt.Printf], [fmt.Fprintf(w, ...)], [fmt.Fprintln(w, ...)] *)
Definition Fprint {R} (text : string) : Body R unit :=
  modify (emit (Print text)).

(** [ref.Update(ctx, []firestore.Update{{Path: "processed", Value: true}})]:
    fails when the document does not exist. *)
Definition Ref_Update {R} (collection id : string) : Body R (option error) :=
  err <- library ;
  match err with
  | Some e => modify (emit (DocUpdate collection id (Some e))) ;; ret (Some e)
  | None =>
      docs <- gets (Collection collection) ;
      match docs !! id with
      | None =>
          let e := StatusError codes.NotFound "no document to update" in
          modify (emit (DocUpdate collection id (Some e))) ;; ret (Some e)
      | Some m =>
          modify (λ w, set_store
                    (<[collection := <[id := markProcessed m]> docs]> (store w)) w) ;;
          modify (emit (DocUpdate collection id None)) ;;
          ret None
      end
  end.

(** [client.Collection(collection).Doc(id).Set(ctx, data)]: creates the
    document or overwrites it. *)
Definition Doc_Set {R} (collection id : string) (data : Message)
  : Body R (option error) :=
  err <- library ;
  match err with
  | Some e => modify (emit (DocSet collection id data (Some e))) ;; ret (Some e)
  | None =>
      docs <- gets (Collection collection) ;
      modify (λ w, set_store (<[collection := <[id := data]> docs]> (store w)) w) ;;
      modify (emit (DocSet collection id data None)) ;;
      ret None
  end.

(** [client.Collection(c).Where("processed", "==", false).Documents(ctx)] *)
Definition Where_unprocessed_Documents {R} (collection : string)
  : Body R (list DocumentSnapshot) :=
  gets (λ w, snapshotOf <$>
               queryOrder E (calls w)
                 (filter (λ p, Processed p.2 = false)
                    (map_to_list (Collection collection w)))).

(** [model.Generate(ctx, ai.NewGenerateRequest(..., requestText), nil)]
    followed by [resp.Text()]. *)
Definition model_Generate {R} (requestText : string)
  : Body R (string * option error) :=
  n <- external ;
  match fault E n with
  | Some e => ret ("", Some e)
  | None => ret (gemini E n requestText, None)
  end.

(** *** [writeMessage] (lines 316-324) *)
Definition writeMessage {R} (collection id message : string)
  : Body R (option error) :=
  call (
    t <- time_Now ;
    err <- Doc_Set collection id
             {| ID := id; Message_ := message; Timestamp := t;
                Processed := false |} ;
    return_ err).

(** *** [generateResponse] (lines 301-314) *)
Definition requestText (userMessage conversationSummary : string) : string :=
  "You're Amitabh Bachchan, hosting Kaun Banega Crorepati. Current status:"
  +:+ nl +:+ conversationSummary +:+ nl +:+ "User said: " +:+ userMessage
  +:+ nl +:+ "Respond in Amitabh's style, max 30 words. Be witty and professional. Do not say anything that can be taken as abusive.".

Definition generateResponse {R} (userMessage conversationSummary : string)
  : Body R (string * option error) :=
  call (
    '(resp, err) <- model_Generate (requestText userMessage conversationSummary) ;
    modify (emit (Generate userMessage conversationSummary err)) ;;
    match err with
    | Some e => return_ ("", Some (Errorf "gemini model error" e))
    | None => return_ (resp, None)
    end).

(** *** [updateConversationSummary] (lines 297-299) *)
Definition updateConversationSummary {R} (pollSummary : string) : Body R unit :=
  modify (set_conversationSummary
            ("Current poll status:" +:+ nl +:+ pollSummary +:+ nl +:+
             "Conversation history: [Add relevant conversation history here]")).

(** *** [fetchPollStatus] (lines 278-295) *)
Definition optionLine (opt : PollOption) : string :=
  Label opt +:+ " - " +:+ OpText opt +:+ ": "
  +:+ pretty (length (Voters opt)) +:+ " votes" +:+ nl.

Definition fetchPollStatus {R} (pollCollection : string)
  : Body R (string * option error) :=
  call (
    n <- external ;
    match fault E n with
    | Some e => return_ ("", Some (Errorf "error fetching poll document" e))
    | None =>
        let doc := pollDoc E n pollCollection "q1" in
        err <- library ;
        match err with
        | Some e =>
            return_ ("", Some (Errorf "error converting document to PollQuestion" e))
        | None =>
            let pollQuestion := doc in
            let summary := "" in
            let summary := summary +:+ ("Question: " +:+ Question pollQuestion +:+ nl) in
            order <- gets (λ w, rangeOrder E (calls w) (Options pollQuestion)) ;
            let summary :=
              fold_left (λ summary kv, summary +:+ optionLine kv.2) order summary in
            return_ (summary, None)
        end
    end).

(** *** [markExistingMessagesAsProcessed] (lines 96-133) *)

(** The loop of lines 112-130 over the documents of the query; every round
    makes two external calls, [iter.Next] and [Update]. *)
Fixpoint drainLoop (userCollection : string) (iter : list DocumentSnapshot)
  : Body (option error) unit :=
  err <- library ;
  match err, iter with
  | Some e, _ =>
      return_ (Some (Errorf "error iterating through unprocessed messages" e))
  | None, [] => ret tt
  | None, doc :: iter' =>
      err <- Ref_Update userCollection (Ref_ID doc) ;
      match err with
      | Some e => return_ (Some (Errorf "error marking message as processed" e))
      | None =>
          Fprint ("Existing message marked as processed: " +:+ Ref_ID doc +:+ nl) ;;
          drainLoop userCollection iter'
      end
  end.

Definition markExistingMessagesAsProcessed {R}
    (serviceAccountPath userCollection : string) : Body R (option error) :=
  call (
    err <- library ;
    match err with
    | Some e => return_ (Some (Errorf "error initializing app" e))
    | None =>
        err <- library ;
        match err with
        | Some e => return_ (Some (Errorf "error initializing Firestore" e))
        | None =>
            iter <- Where_unprocessed_Documents userCollection ;
            drainLoop userCollection iter ;;
            return_ None
        end
    end).

(** *** [listenForNewUserMessages] (lines 136-211) *)

(** One round of the inner loop, lines 170-208: decode the document, then
    answer it with the mutex held.  Counted from the first one, its external
    calls are: 0 [doc.DataTo], 1 [time.Now] (line 178), 2 [model.Generate],
    3 [time.Now] (line 320), 4 [Set], 5 [Update], 6 [time.Now] (line 204). *)
Definition handleDocument (userCollection pingCollection : string)
    (doc : DocumentSnapshot) : Body (option error) unit :=
  err <- library ;
  match err with
  | Some e => return_ (Some (Errorf "error converting document to message" e))
  | None =>
      let msg := Data doc in
      mu_Lock ;;
      t <- time_Now ;
      modify (set_lastUserMessage t) ;;
      summary <- gets conversationSummary ;
      '(responseMessage, err) <- generateResponse (Message_ msg) summary ;
      match err with
      | Some e =>
          mu_Unlock ;;
          return_ (Some (Errorf "error generating response" e))
      | None =>
          err <- writeMessage pingCollection (Ref_ID doc) responseMessage ;
          match err with
          | Some e =>
              mu_Unlock ;;
              return_ (Some (Errorf "error writing response message" e))
          | None =>
              err <- Ref_Update userCollection (Ref_ID doc) ;
              match err with
              | Some e =>
                  mu_Unlock ;;
                  return_ (Some (Errorf "error marking message as processed" e))
              | None =>
                  t <- time_Now ;
                  modify (set_lastResponseTime t) ;;
                  Fprint ("Response written: " +:+ responseMessage +:+ nl) ;;
                  mu_Unlock
              end
          end
      end
  end.

(** The inner loop, lines 161-209, over the documents of one snapshot. *)
Fixpoint documentsLoop (userCollection pingCollection : string)
    (docs : QuerySnapshot) : Body (option error) unit :=
  err <- library ;
  match err, docs with
  | Some e, _ => return_ (Some (Errorf "Documents.Next" e))
  | None, [] => ret tt
  | None, doc :: docs' =>
      handleDocument userCollection pingCollection doc ;;
      documentsLoop userCollection pingCollection docs'
  end.

(** The outer loop, lines 151-210.  [it] holds the snapshots that the
    subscription will deliver; when none is left [it.Next()] waits. *)
Fixpoint snapshotsLoop (userCollection pingCollection : string)
    (it : list QuerySnapshot) : Body (option error) (option error) :=
  err <- library ;
  if decide (status.Code err = codes.DeadlineExceeded) then
    Fprint ("Timeout reached" +:+ nl) ;;
    return_ None
  else
    match err, it with
    | Some e, _ => return_ (Some (Errorf "Snapshots.Next" e))
    | None, [] => block
    | None, snap :: it' =>
        documentsLoop userCollection pingCollection snap ;;
        snapshotsLoop userCollection pingCollection it'
    end.

Definition listenForNewUserMessages {R} (it : list QuerySnapshot)
    (serviceAccountPath userCollection pingCollection : string)
  : Body R (option error) :=
  call (
    err <- library ;
    match err with
    | Some e => return_ (Some (Errorf "error initializing app" e))
    | None =>
        err <- library ;
        match err with
        | Some e => return_ (Some (Errorf "error initializing Firestore" e))
        | None => snapshotsLoop userCollection pingCollection it
        end
    end).

(** *** [monitorAndRespond] (lines 213-276) *)

(** The decision policy of lines 243 and 256. *)
Definition idleDue (currentTime : time.Time) (w : World) : bool :=
  (time.Sub currentTime (lastUserMessage w) >? 30 * time.Second)
  && (time.Sub currentTime (lastResponseTime w) >=? 10 * time.Second).

Definition pollUpdateDue (currentTime : time.Time) (w : World) : bool :=
  time.Sub currentTime (lastResponseTime w) >=? 15 * time.Second.

(** One tick, lines 232-273.  Counted from the first one, its external
    calls are: 0 [time.Now] (line 233), 1 [Get], 2 [doc.DataTo],
    3 [model.Generate], 4 [time.Now] (line 320), 5 [Set]. *)
Definition monitorTick (pingCollection pollCollection : string)
  : Body (option error) unit :=
  mu_Lock ;;
  currentTime <- time_Now ;
  '(pollSummary, err) <- fetchPollStatus pollCollection ;
  match err with
  | Some e =>
      mu_Unlock ;;
      return_ (Some (Errorf "error fetching poll status" e))
  | None =>
      updateConversationSummary pollSummary ;;
      idle <- gets (idleDue currentTime) ;
      (if idle then
         summary <- gets conversationSummary ;
         '(promptMessage, err) <- generateResponse "prompt" summary ;
         match err with
         | Some e =>
             mu_Unlock ;;
             return_ (Some (Errorf "error generating prompt" e))
         | None =>
             err <- writeMessage pingCollection "host-prompt" promptMessage ;
             match err with
             | Some e =>
                 mu_Unlock ;;
                 return_ (Some (Errorf "error writing prompt message" e))
             | None => modify (set_lastResponseTime currentTime)
             end
         end
       else
         due <- gets (pollUpdateDue currentTime) ;
         if due then
           let updateMessage := "Poll update: " +:+ pollSummary in
           '(promptMessage, err) <- generateResponse "poll-update" updateMessage ;
           match err with
           | Some e =>
               mu_Unlock ;;
               return_ (Some (Errorf "error generating prompt" e))
           | None =>
               err <- writeMessage pingCollection "host-prompt" promptMessage ;
               match err with
               | Some e =>
                   mu_Unlock ;;
                   return_ (Some (Errorf "error writing prompt message" e))
               | None => modify (set_lastResponseTime currentTime)
               end
           end
         else ret tt) ;;
      mu_Unlock
  end.

(** The loop of lines 229-275 for the ticks that the ticker delivers;
    after the last one [select] waits. *)
Fixpoint monitorLoop (ticks : nat) (pingCollection pollCollection : string)
  : Body (option error) (option error) :=
  match ticks with
  | O => block
  | S ticks' =>
      monitorTick pingCollection pollCollection ;;
      monitorLoop ticks' pingCollection pollCollection
  end.

Definition monitorAndRespond {R} (ticks : nat)
    (serviceAccountPath userCollection pingCollection pollCollection : string)
  : Body R (option error) :=
  call (
    err <- library ;
    match err with
    | Some e => return_ (Some (Errorf "error initializing app" e))
    | None =>
        err <- library ;
        match err with
        | Some e => return_ (Some (Errorf "error initializing Firestore" e))
        | None => monitorLoop ticks pingCollection pollCollection
        end
    end).

(** *** The message worker of [main] (lines 71-82) *)

Definition serviceAccountPath : string := ".keys/serviceAccountKey.json".
Definition userCollection : string := "gccdpune-user".
Definition pingCollection : string := "gccdpune-go-pings".
Definition pollCollection : string := "gccdpune-poll".


Definition monitorWorker (ticks : nat) : Body Exit Exit :=
  call (
    err <- monitorAndRespond ticks serviceAccountPath userCollection
             pingCollection pollCollection ;
    match err with
    | Some e => return_ (Fatal ("Error monitoring and responding: " +:+ Error e))
    | None => return_ Finished
    end).

End Program.

(** The state of the process when [main] starts its workers. *)
Definition initial (s : gmap string (gmap string Message)) : World :=
  {| store := s; lastUserMessage := time.zero; conversationSummary := "";
     lastResponseTime := time.zero; mu := false; calls := 0%nat; events := [] |}.

(** * The two workers side by side *)

(** The sequential functions above run a whole critical section at once.
    To state what the mutex guarantees, the same statements are cut at the
    lines of [main.go]: a worker is at a program point, and one step runs the
    statement at that point.  The points [L178] to [LUnlockReturn] lie
    between [mu.Lock()] (line 177) and [mu.Unlock()] (lines 183, 190, 199,
    208) of the listener, the points [M233] to [MUnlockReturn] between line
    232 and lines 237, 246, 252, 261, 267, 273 of the monitor. *)
Inductive ListenerPc :=
| LIdle
| LDecode (doc : DocumentSnapshot)
| LLock (doc : DocumentSnapshot)
| L178 (doc : DocumentSnapshot)
| L181 (doc : DocumentSnapshot)
| L188 (doc : DocumentSnapshot) (responseMessage : string)
| L195 (doc : DocumentSnapshot) (responseMessage : string)
| L204 (responseMessage : string)
| L205 (responseMessage : string)
| L208
| LUnlockReturn (err : error)
| LReturned (err : option error).

Inductive MonitorPc :=
| MSelect
| MLock
| M233
| M235 (currentTime : time.Time)
| M241 (currentTime : time.Time) (pollSummary : string)
| M243 (currentTime : time.Time) (pollSummary : string)
| M244 (currentTime : time.Time)
| M250 (currentTime : time.Time) (promptMessage : string)
| M255 (currentTime : time.Time)
| M257 (currentTime : time.Time) (pollSummary : string)
| M265 (currentTime : time.Time) (promptMessage : string)
| M270 (currentTime : time.Time)
| M273
| MUnlockReturn (err : error)
| MReturned (err : option error).

(** The points at which the worker holds the mutex. *)
Definition listenerHolds (pc : ListenerPc) : bool :=
  match pc with
  | LIdle | LDecode _ | LLock _ | LReturned _ => false
  | _ => true
  end.

Definition monitorHolds (pc : MonitorPc) : bool :=
  match pc with
  | MSelect | MLock | MReturned _ => false
  | _ => true
  end.

(** A statement runs to its end, or the worker waits ([mu.Lock()] on a held
    mutex). *)
Definition exec {A} (m : Body unit A) (w : World) : option (A * World) :=
  match m w with
  | (Next a, w') => Some (a, w')
  | _ => None
  end.

Section Workers.

Context (E : Env) (userCollection pingCollection pollCollection : string).

(** The listener, lines 171-208.  From [LIdle] it moves when a document
    arrives, see [workerStep]. *)
Definition listenerStep (pc : ListenerPc) (w : World)
  : option (ListenerPc * World) :=
  match pc with
  | LIdle => None
  | LDecode doc =>
      '(err, w') ← exec (library E) w;
      Some (match err with
            | Some e =>
                LReturned (Some (Errorf "error converting document to message" e))
            | None => LLock doc
            end, w')
  | LLock doc =>
      '(_, w') ← exec mu_Lock w;
      Some (L178 doc, w')
  | L178 doc =>
      '(_, w') ← exec (t <- time_Now E ; modify (set_lastUserMessage t)) w;
      Some (L181 doc, w')
  | L181 doc =>
      '(r, w') ← exec (summary <- gets conversationSummary ;
                       generateResponse E (Message_ (Data doc)) summary) w;
      Some (match r.2 with
            | Some e => LUnlockReturn (Errorf "error generating response" e)
            | None => L188 doc r.1
            end, w')
  | L188 doc responseMessage =>
      '(err, w') ← exec (writeMessage E pingCollection (Ref_ID doc) responseMessage) w;
      Some (match err with
            | Some e => LUnlockReturn (Errorf "error writing response message" e)
            | None => L195 doc responseMessage
            end, w')
  | L195 doc responseMessage =>
      '(err, w') ← exec (Ref_Update E userCollection (Ref_ID doc)) w;
      Some (match err with
            | Some e => LUnlockReturn (Errorf "error marking message as processed" e)
            | None => L204 responseMessage
            end, w')
  | L204 responseMessage =>
      '(_, w') ← exec (t <- time_Now E ; modify (set_lastResponseTime t)) w;
      Some (L205 responseMessage, w')
  | L205 responseMessage =>
      '(_, w') ← exec (Fprint ("Response written: " +:+ responseMessage +:+ nl)) w;
      Some (L208, w')
  | L208 =>
      '(_, w') ← exec mu_Unlock w;
      Some (LIdle, w')
  | LUnlockReturn e =>
      '(_, w') ← exec mu_Unlock w;
      Some (LReturned (Some e), w')
  | LReturned _ => None
  end.

(** The monitor, lines 232-273.  From [MSelect] it moves when the ticker
    fires, see [workerStep]. *)
Definition monitorStep (pc : MonitorPc) (w : World)
  : option (MonitorPc * World) :=
  match pc with
  | MSelect => None
  | MLock =>
      '(_, w') ← exec mu_Lock w;
      Some (M233, w')
  | M233 =>
      '(currentTime, w') ← exec (time_Now E) w;
      Some (M235 currentTime, w')
  | M235 currentTime =>
      '(r, w') ← exec (fetchPollStatus E pollCollection) w;
      Some (match r.2 with
            | Some e => MUnlockReturn (Errorf "error fetching poll status" e)
            | None => M241 currentTime r.1
            end, w')
  | M241 currentTime pollSummary =>
      '(_, w') ← exec (updateConversationSummary pollSummary) w;
      Some (M243 currentTime pollSummary, w')
  | M243 currentTime pollSummary =>
      Some (if idleDue currentTime w then M244 currentTime
            else if pollUpdateDue currentTime w then M257 currentTime pollSummary
            else M273, w)
  | M244 currentTime =>
      '(r, w') ← exec (summary <- gets conversationSummary ;
                       generateResponse E "prompt" summary) w;
      Some (match r.2 with
            | Some e => MUnlockReturn (Errorf "error generating prompt" e)
            | None => M250 currentTime r.1
            end, w')
  | M250 currentTime promptMessage =>
      '(err, w') ← exec (writeMessage E pingCollection "host-prompt" promptMessage) w;
      Some (match err with
            | Some e => MUnlockReturn (Errorf "error writing prompt message" e)
            | None => M255 currentTime
            end, w')
  | M255 currentTime =>
      '(_, w') ← exec (modify (set_lastResponseTime currentTime)) w;
      Some (M273, w')
  | M257 currentTime pollSummary =>
      '(r, w') ← exec (generateResponse E "poll-update"
                         ("Poll update: " +:+ pollSummary)) w;
      Some (match r.2 with
            | Some e => MUnlockReturn (Errorf "error generating prompt" e)
            | None => M265 currentTime r.1
            end, w')
  | M265 currentTime promptMessage =>
      '(err, w') ← exec (writeMessage E pingCollection "host-prompt" promptMessage) w;
      Some (match err with
            | Some e => MUnlockReturn (Errorf "error writing prompt message" e)
            | None => M270 currentTime
            end, w')
  | M270 currentTime =>
      '(_, w') ← exec (modify (set_lastResponseTime currentTime)) w;
      Some (M273, w')
  | M273 =>
      '(_, w') ← exec mu_Unlock w;
      Some (MSelect, w')
  | MUnlockReturn e =>
      '(_, w') ← exec mu_Unlock w;
      Some (MReturned (Some e), w')
  | MReturned _ => None
  end.

(** A worker running alone for at most [fuel] steps. *)
Fixpoint listenerRun (fuel : nat) (pc : ListenerPc) (w : World)
  : ListenerPc * World :=
  match fuel with
  | O => (pc, w)
  | S fuel' =>
      match listenerStep pc w with
      | Some (pc', w') => listenerRun fuel' pc' w'
      | None => (pc, w)
      end
  end.

Fixpoint monitorRun (fuel : nat) (pc : MonitorPc) (w : World)
  : MonitorPc * World :=
  match fuel with
  | O => (pc, w)
  | S fuel' =>
      match monitorStep pc w with
      | Some (pc', w') => monitorRun fuel' pc' w'
      | None => (pc, w)
      end
  end.

(** The two goroutines of [main] and the world they share. *)
Record Config := {
  world : World;
  listener : ListenerPc;
  monitor : MonitorPc;
}.

Inductive Worker := MessageWorker | MonitorWorker.

(** One step of one worker; the scheduler picks any worker that can move. *)
Inductive workerStep : Worker → Config → Config → Prop :=
| document_arrives (c : Config) (doc : DocumentSnapshot) :
    listener c = LIdle →
    workerStep MessageWorker c
      {| world := world c; listener := LDecode doc; monitor := monitor c |}
| listener_moves (c : Config) (pc' : ListenerPc) (w' : World) :
    listenerStep (listener c) (world c) = Some (pc', w') →
    workerStep MessageWorker c
      {| world := w'; listener := pc'; monitor := monitor c |}
| ticker_fires (c : Config) :
    monitor c = MSelect →
    workerStep MonitorWorker c
      {| world := world c; listener := listener c; monitor := MLock |}
| monitor_moves (c : Config) (pc' : MonitorPc) (w' : World) :
    monitorStep (monitor c) (world c) = Some (pc', w') →
    workerStep MonitorWorker c
      {| world := w'; listener := listener c; monitor := pc' |}.

Definition anyStep (c c' : Config) : Prop := ∃ t, workerStep t c c'.

End Workers.

(** The three package variables. *)
Definition shared (w : World) : time.Time * string * time.Time :=
  (lastUserMessage w, conversationSummary w, lastResponseTime w).

(** The same configuration with other values in the package variables. *)
Definition overwrite (v : time.Time * string * time.Time) (c : Config) : Config :=
  {| world := set_lastUserMessage v.1.1
                (set_conversationSummary v.1.2
                   (set_lastResponseTime v.2 (world c)));
     listener := listener c;
     monitor := monitor c |}.

(** * Vocabulary of the properties *)

(** The concatenation of the lines of a text. *)
Definition joinLines (lines : list string) : string :=
  foldr String.append "" lines.

(** The errors of lines 184, 191 and 200: the generation, the reply write
    or the update of the processed flag failed. *)
Definition handlingError (err : error) : Prop :=
  ∃ e, err = Errorf "error generating response" e ∨
       err = Errorf "error writing response message" e ∨
       err = Errorf "error marking message as processed" e.

(** The world after the snapshots [pre] were delivered and every document
    of them was handled, if that happened without an error. *)
Fixpoint rounds (E : Env) (user ping : string) (pre : list QuerySnapshot)
    (w : World) : option World :=
  match pre with
  | [] => Some w
  | snap :: pre' =>
      match fault E (calls w) with
      | Some _ => None
      | None =>
          match documentsLoop E user ping snap (set_calls (S (calls w)) w) with
          | (Next _, w2) => rounds E user ping pre' w2
          | _ => None
          end
      end
  end.

(** The line that the drain prints for a document it marked (line 129). *)
Definition drainPrint (doc : DocumentSnapshot) : Event :=
  Print ("Existing message marked as processed: " +:+ Ref_ID doc +:+ nl).

(** The documents that the drain's query yields in a world [w]. *)
Definition backlog (E : Env) (user : string) (w : World) : list DocumentSnapshot :=
  snapshotOf <$>
    queryOrder E (2 + calls w)%nat
      (filter (λ p, Processed p.2 = false) (map_to_list (Collection user w))).

(** The summary that a tick computes from the poll document it fetched
    (lines 290-293 and 298). *)
Definition tickSummary (E : Env) (poll : string) (w : World) : string :=
  let q := pollDoc E (1 + calls w)%nat poll "q1" in
  "Current poll status:" +:+ nl +:+
  ("Question: " +:+ Question q +:+ nl +:+
   joinLines ((λ kv, optionLine kv.2)
                <$> rangeOrder E (3 + calls w)%nat (Options q))) +:+ nl +:+
  "Conversation history: [Add relevant conversation history here]".

(** The steps of the process: the handling of one message by the listener
    and one tick of the monitor, which run with the mutex held, and an
    external call made outside the mutex (initialisation, the drain, the
    iterators of the listener), after which the store is [db]. *)
Inductive Step :=
| HandleMessage (userCollection pingCollection : string) (doc : DocumentSnapshot)
| Tick (pingCollection pollCollection : string)
| Elsewhere (db : gmap string (gmap string Message)).

Definition step (E : Env) (s : Step) (w : World) : World :=
  match s with
  | HandleMessage user ping doc => (handleDocument E user ping doc w).2
  | Tick ping poll => (monitorTick E ping poll w).2
  | Elsewhere db => set_store db (set_calls (S (calls w)) w)
  end.

(** The world after a sequence of steps, in the order the mutex serialises
    them. *)
Definition run (E : Env) (steps : list Step) (w : World) : World :=
  foldl (λ w s, step E s w) w steps.

(** Between steps the mutex is free and no timestamp is ahead of the clock. *)
Definition settled (E : Env) (w : World) : Prop :=
  mu w = false ∧
  lastUserMessage w ≤ now E (calls w) ∧
  lastResponseTime w ≤ now E (calls w).

(** The mutex is held exactly when one worker is between its [Lock] and its
    [Unlock], and the two workers never are at the same time. *)
Definition exclusive (c : Config) : Prop :=
  mu (world c) = listenerHolds (listener c) || monitorHolds (monitor c) ∧
  listenerHolds (listener c) && monitorHolds (monitor c) = false.

(** The poll summary that a tick started in [w] computes (lines 290-293). *)
Definition tickPollSummary (E : Env) (poll : string) (w : World) : string :=
  let q := pollDoc E (1 + calls w)%nat poll "q1" in
  "Question: " +:+ Question q +:+ nl +:+
  joinLines ((λ kv, optionLine kv.2)
               <$> rangeOrder E (3 + calls w)%nat (Options q)).

(** The arguments of [generateResponse] with which a tick started in [w]
    asks for a prompt, if a prompt is due (lines 243-244 and 256-259). *)
Definition tickRequest (E : Env) (poll : string) (w : World)
  : option (string * string) :=
  let currentTime := now E (calls w) in
  if idleDue currentTime w then Some ("prompt", tickSummary E poll w)
  else if pollUpdateDue currentTime w
       then Some ("poll-update", "Poll update: " +:+ tickPollSummary E poll w)
       else None.

(** The document that a tick started in [w] writes for a request. *)
Definition tickPrompt (E : Env) (w : World) (request : string * string) : Message :=
  {| ID := "host-prompt";
     Message_ := gemini E (3 + calls w)%nat (requestText request.1 request.2);
     Timestamp := now E (4 + calls w)%nat;
     Processed := false |}.

(** The errors with which a tick ends (lines 238, 247, 253, 262, 268). *)
Definition tickError (err : error) : Prop :=
  ∃ e, err = Errorf "error fetching poll status" e ∨
       err = Errorf "error generating prompt" e ∨
       err = Errorf "error writing prompt message" e.

(** The errors of the two initialisation calls of a worker function. *)
Definition initError (err : error) : Prop :=
  ∃ e, err = Errorf "error initializing app" e ∨
       err = Errorf "error initializing Firestore" e.

(** ** Concrete data *)

(** A poll with two options, a quiet environment in which no call fails and
    the clock advances by one second per external call from second 100, and
    environments in which one call fails. *)
Definition poll1 : PollQuestion :=
  {| Question := "Best language?";
     Options :=
       <["A" := {| OpText := "Go"; Label := "A"; Voters := ["a"; "b"; "a"] |}]>
         (<["B" := {| OpText := "Rocq"; Label := "B"; Voters := [] |}]> ∅) |}.

Definition failing (at_call : nat) (e : error) : Env :=
  {| now := λ n, (100 + Z.of_nat n) * time.Second;
     fault := λ n, if decide (n = at_call) then Some e else None;
     gemini := λ _ _, "Namaskar!";
     pollDoc := λ _ _ _, poll1;
     rangeOrder := λ _ m, map_to_list m;
     queryOrder := λ _ l, l |}.

Definition quiet : Env :=
  {| now := λ n, (100 + Z.of_nat n) * time.Second;
     fault := λ _, None;
     gemini := λ _ _, "Namaskar!";
     pollDoc := λ _ _ _, poll1;
     rangeOrder := λ _ m, map_to_list m;
     queryOrder := λ _ l, l |}.

(** The quiet environment with a clock of the year 2024, counted like Go
    from the year 1: more than a [Duration] can hold. *)
Definition year2024 : Env :=
  {| now := λ n, (63840000000 + Z.of_nat n) * time.Second;
     fault := λ _, None;
     gemini := λ _ _, "Namaskar!";
     pollDoc := λ _ _ _, poll1;
     rangeOrder := λ _ m, map_to_list m;
     queryOrder := λ _ l, l |}.

(** A world at second 100 in which the last user message is [u] seconds
    old and the last response [r] seconds old. *)
Definition world_at (u r : Z) (s : gmap string (gmap string Message)) : World :=
  {| store := s;
     lastUserMessage := (100 - u) * time.Second;
     conversationSummary := "";
     lastResponseTime := (100 - r) * time.Second;
     mu := false; calls := 0; events := [] |}.

Definition m1 : DocumentSnapshot :=
  {| Ref_ID := "m1";
     Data := {| ID := "m1"; Message_ := "Is it B?"; Timestamp := 90 * time.Second;
                Processed := false |} |}.

Definition m2 : DocumentSnapshot :=
  {| Ref_ID := "m2";
     Data := {| ID := "m2"; Message_ := "Lock it"; Timestamp := 95 * time.Second;
                Processed := false |} |}.

Definition inbox : gmap string (gmap string Message) :=
  {[ userCollection := <["m1" := Data m1]> (<["m2" := Data m2]> ∅) ]}.

(** * Properties *)

(** ** Strings *)

Lemma append_assoc (s1 s2 s3 : string) :
  (s1 +:+ s2) +:+ s3 = s1 +:+ (s2 +:+ s3).
Proof.
  induction s1 as [|c s1 IH]; [done |].
  change (String c ((s1 +:+ s2) +:+ s3) = String c (s1 +:+ (s2 +:+ s3))).
  by rewrite IH.
Qed.

Lemma append_empty_r (s : string) : s +:+ "" = s.
Proof.
  induction s as [|c s IH]; [done |].
  change (String c (s +:+ "") = String c s). by rewrite IH.
Qed.

Lemma fold_left_append {A} (f : A → string) (l : list A) (s : string) :
  fold_left (λ acc x, acc +:+ f x) l s = s +:+ joinLines (f <$> l).
Proof.
  revert s. induction l as [|x l IH]; intros s; simpl.
  - by rewrite append_empty_r.
  - by rewrite IH, append_assoc.
Qed.

(** ** The poll summary *)

(** What [fetchPollStatus] returns once the poll document is fetched and
    decoded, for the order in which [range] visits the options. *)
Lemma fetchPollStatus_fetched {R} (E : Env) (poll : string) (w : World) :
  fault E (calls w) = None →
  fault E (S (calls w)) = None →
  let q := pollDoc E (calls w) poll "q1" in
  fetchPollStatus (R:=R) E poll w =
    (Next ("Question: " +:+ Question q +:+ nl +:+
           joinLines ((λ kv, optionLine kv.2)
                        <$> rangeOrder E (S (S (calls w))) (Options q)), None),
     set_calls (S (S (calls w))) w).
Proof.
  intros Hget Hdec q.
  unfold fetchPollStatus, call, bind, external, library, gets, ret, return_.
  simpl. rewrite Hget. simpl. rewrite Hdec. simpl.
  rewrite fold_left_append. change ("" +:+ ?s) with s. rewrite !append_assoc.
  destruct w; reflexivity.
Qed.

(** C7. Once the poll document is fetched and decoded, the summary is the
    question line followed by one line "label - text: N votes" per option,
    each option once, where N is the length of the option's voters list; so
    an option with voters a, b, a is reported with 3 votes. *)
Theorem poll_summary_counts_voters {R} (E : Env) (poll : string) (w : World) :
  fair E →
  fault E (calls w) = None →
  fault E (S (calls w)) = None →
  let q := pollDoc E (calls w) poll "q1" in
  let line (opt : PollOption) :=
    Label opt +:+ " - " +:+ OpText opt +:+ ": "
    +:+ pretty (length (Voters opt)) +:+ " votes" +:+ nl in
  (∃ (opts : list PollOption) (w' : World),
      opts ≡ₚ (map_to_list (Options q)).*2 ∧
      fetchPollStatus (R:=R) E poll w =
        (Next ("Question: " +:+ Question q +:+ nl +:+ joinLines (line <$> opts),
               None), w')) ∧
  (∀ opt : PollOption,
      Voters opt = ["a"; "b"; "a"] →
      line opt = Label opt +:+ " - " +:+ OpText opt +:+ ": 3 votes" +:+ nl).
Proof.
  intros [Hrange _] Hget Hdec q line. split.
  - exists ((rangeOrder E (S (S (calls w))) (Options q)).*2), (set_calls (S (S (calls w))) w).
    split.
    + by rewrite (Hrange (S (S (calls w))) (Options q)).
    + rewrite (fetchPollStatus_fetched E poll w Hget Hdec). simpl.
      by rewrite <- list_fmap_compose.
  - intros opt Hv. unfold line. rewrite Hv. reflexivity.
Qed.

(** ** Running the program *)

Ltac unfold_go :=
  unfold monitorTick, handleDocument, fetchPollStatus, generateResponse,
    model_Generate, writeMessage, Doc_Set, Ref_Update,
    updateConversationSummary, Where_unprocessed_Documents, mu_Lock,
    mu_Unlock, Fprint, time_Now, library, external, call, bind, gets, modify,
    ret, return_, block.

Ltac unfold_go_in H :=
  unfold monitorTick, handleDocument, fetchPollStatus, generateResponse,
    model_Generate, writeMessage, Doc_Set, Ref_Update,
    updateConversationSummary, Where_unprocessed_Documents, mu_Lock,
    mu_Unlock, Fprint, time_Now, library, external, call, bind, gets, modify,
    ret, return_, block in H.

Lemma Sub_gt (t u : time.Time) (d : time.Duration) :
  time.Sub t u > d ↔ (time.Sub t u >? d) = true.
Proof. rewrite Z.gtb_ltb, Z.ltb_lt. lia. Qed.

Lemma Sub_ge (t u : time.Time) (d : time.Duration) :
  time.Sub t u >= d ↔ (time.Sub t u >=? d) = true.
Proof. rewrite Z.geb_leb, Z.leb_le. lia. Qed.

Lemma idleDue_true (currentTime : time.Time) (w : World) :
  idleDue currentTime w = true ↔
  time.Sub currentTime (lastUserMessage w) > 30 * time.Second ∧
  time.Sub currentTime (lastResponseTime w) >= 10 * time.Second.
Proof. unfold idleDue. rewrite andb_true_iff, <- Sub_gt, <- Sub_ge. done. Qed.

Lemma pollUpdateDue_true (currentTime : time.Time) (w : World) :
  pollUpdateDue currentTime w = true ↔
  time.Sub currentTime (lastResponseTime w) >= 15 * time.Second.
Proof. unfold pollUpdateDue. by rewrite <- Sub_ge. Qed.

(** ** The monitor's decision *)

(** C1. On a tick that fetched the poll and on which more than 30s passed
    since the last user message and at least 10s since the last response
    (whether or not 15s passed too), the monitor generates the idle prompt
    and nothing else; when the generation and the write succeed, the prompt
    is stored under "host-prompt" and the last response time is the time of
    the tick. *)
Theorem idle_prompt_has_priority (E : Env) (ping poll : string) (w : World) :
  let c := calls w in
  let currentTime := now E c in
  mu w = false →
  fault E (1 + c)%nat = None →
  fault E (2 + c)%nat = None →
  time.Sub currentTime (lastUserMessage w) > 30 * time.Second →
  time.Sub currentTime (lastResponseTime w) >= 10 * time.Second →
  ∃ (o : Flow (option error) unit) (w' : World) (rest : list Event),
    monitorTick E ping poll w = (o, w') ∧
    events w' =
      (events w ++
       Generate "prompt" (conversationSummary w') (fault E (3 + c)%nat) :: rest)%list ∧
    (∀ e, e ∈ rest → ∃ data err, e = DocSet ping "host-prompt" data err) ∧
    (fault E (3 + c)%nat = None →
     fault E (5 + c)%nat = None →
     o = Next tt ∧
     Collection ping w' !! "host-prompt" =
       Some {| ID := "host-prompt";
               Message_ := gemini E (3 + c)%nat
                             (requestText "prompt" (conversationSummary w'));
               Timestamp := now E (4 + c)%nat;
               Processed := false |} ∧
     lastResponseTime w' = currentTime).
Proof.
  intros c currentTime Hmu Hget Hdec Huser Hresp.
  assert (Hidle : idleDue currentTime w = true) by (by apply idleDue_true).
  subst c currentTime.
  unfold_go. rewrite Hmu. simpl in *. rewrite Hget. simpl. rewrite Hdec. simpl.
  unfold idleDue in *. simpl. rewrite Hidle. simpl.
  destruct (fault E (S (S (S (calls w))))) as [e|] eqn:Hgen; simpl.
  - eexists _, _, []. split; [reflexivity|]. simpl. split; [reflexivity|].
    split; [intros ? ?%elem_of_nil; done | done].
  - destruct (fault E (S (S (S (S (S (calls w))))))) as [e|] eqn:Hset; simpl.
    + eexists _, _, [_]. split; [reflexivity|]. simpl.
      rewrite <- app_assoc. split; [reflexivity|].
      split; [|done]. intros ? ->%list_elem_of_singleton. eauto.
    + eexists _, _, [_]. split; [reflexivity|]. simpl.
      rewrite <- app_assoc. split; [reflexivity|].
      split; [intros ? ->%list_elem_of_singleton; eauto |].
      intros _ _. split; [done|]. split; [|done].
      unfold Collection. simpl. rewrite lookup_insert_eq. simpl.
      by rewrite lookup_insert_eq.
Qed.

(** C2. On a tick that fetched the poll and on which the idle condition is
    false, the monitor generates the poll-update prompt, from the poll
    summary of this tick, exactly when at least 15s passed since the last
    response, 15s included; below 15s the tick generates nothing, writes
    nothing and leaves the last response time as it was. *)
Theorem poll_update_threshold (E : Env) (ping poll : string) (w : World) :
  let c := calls w in
  let currentTime := now E c in
  mu w = false →
  fault E (1 + c)%nat = None →
  fault E (2 + c)%nat = None →
  ¬ (time.Sub currentTime (lastUserMessage w) > 30 * time.Second ∧
     time.Sub currentTime (lastResponseTime w) >= 10 * time.Second) →
  ∃ (o : Flow (option error) unit) (w' : World) (pollSummary : string),
    monitorTick E ping poll w = (o, w') ∧
    conversationSummary w' =
      "Current poll status:" +:+ nl +:+ pollSummary +:+ nl +:+
      "Conversation history: [Add relevant conversation history here]" ∧
    (time.Sub currentTime (lastResponseTime w) >= 15 * time.Second →
     ∃ rest : list Event,
       events w' =
         (events w ++
          Generate "poll-update" ("Poll update: " +:+ pollSummary)
            (fault E (3 + c)%nat) :: rest)%list ∧
       (∀ e, e ∈ rest → ∃ data err, e = DocSet ping "host-prompt" data err) ∧
       (fault E (3 + c)%nat = None →
        fault E (5 + c)%nat = None →
        o = Next tt ∧
        Collection ping w' !! "host-prompt" =
          Some {| ID := "host-prompt";
                  Message_ := gemini E (3 + c)%nat
                                (requestText "poll-update"
                                   ("Poll update: " +:+ pollSummary));
                  Timestamp := now E (4 + c)%nat;
                  Processed := false |} ∧
        lastResponseTime w' = currentTime)) ∧
    (time.Sub currentTime (lastResponseTime w) < 15 * time.Second →
     o = Next tt ∧ events w' = events w ∧ store w' = store w ∧
     lastResponseTime w' = lastResponseTime w).
Proof.
  intros c currentTime Hmu Hget Hdec Hbusy.
  assert (Hidle : idleDue currentTime w = false).
  { destruct (idleDue currentTime w) eqn:Hidle; [|done].
    by apply idleDue_true in Hidle. }
  destruct (pollUpdateDue currentTime w) eqn:Hdue.
  - (* at least 15s *)
    assert (H15 : time.Sub currentTime (lastResponseTime w) >= 15 * time.Second)
      by (by apply pollUpdateDue_true).
    subst c currentTime.
    unfold_go. rewrite Hmu. simpl in *. rewrite Hget. simpl. rewrite Hdec. simpl.
    unfold idleDue, pollUpdateDue in *. simpl. rewrite Hidle. simpl.
    rewrite Hdue. simpl.
    destruct (fault E (S (S (S (calls w))))) as [e|] eqn:Hgen; simpl.
    + eexists _, _, _. split; [reflexivity|]. simpl. split; [reflexivity|].
      split; [|lia]. intros _. exists []. split; [reflexivity|].
      split; [intros ? ?%elem_of_nil; done | done].
    + destruct (fault E (S (S (S (S (S (calls w))))))) as [e|] eqn:Hset; simpl.
      * eexists _, _, _. split; [reflexivity|]. simpl. split; [reflexivity|].
        split; [|lia]. intros _. eexists [_]. rewrite <- app_assoc.
        split; [reflexivity|]. split; [|done].
        intros ? ->%list_elem_of_singleton. eauto.
      * eexists _, _, _. split; [reflexivity|]. simpl. split; [reflexivity|].
        split; [|lia]. intros _. eexists [_]. rewrite <- app_assoc.
        split; [reflexivity|].
        split; [intros ? ->%list_elem_of_singleton; eauto |].
        intros _ _. split; [done|]. split; [|done].
        unfold Collection. simpl. rewrite lookup_insert_eq. simpl.
        by rewrite lookup_insert_eq.
  - (* below 15s *)
    assert (H15 : ¬ time.Sub currentTime (lastResponseTime w) >= 15 * time.Second).
    { intros H. apply pollUpdateDue_true in H. congruence. }
    subst c currentTime.
    unfold_go. rewrite Hmu. simpl in *. rewrite Hget. simpl. rewrite Hdec. simpl.
    unfold idleDue, pollUpdateDue in *. simpl. rewrite Hidle. simpl.
    rewrite Hdue. simpl.
    eexists _, _, _. split; [reflexivity|]. simpl. split; [reflexivity|].
    split; [intros; lia | done].
Qed.

(** ** Handling one message *)


(** What one round of the inner loop does to the shared variables, whatever
    the collaborators do. *)
Lemma handleDocument_shared (E : Env) (user ping : string)
    (doc : DocumentSnapshot) (w : World) :
  mu w = false →
  ∃ (o : Flow (option error) unit) (w' : World),
    handleDocument E user ping doc w = (o, w') ∧
    mu w' = false ∧
    conversationSummary w' = conversationSummary w ∧
    (calls w < calls w')%nat ∧
    ((lastUserMessage w' = lastUserMessage w ∧
      lastResponseTime w' = lastResponseTime w ∧
      ∃ e, fault E (calls w) = Some e ∧
           o = Return (Some (Errorf "error converting document to message" e))) ∨
     (fault E (calls w) = None ∧
      lastUserMessage w' = now E (1 + calls w)%nat ∧
      ((lastResponseTime w' = lastResponseTime w ∧
        (2 + calls w < calls w')%nat ∧
        ∃ err, o = Return (Some err) ∧ handlingError err) ∨
       (lastResponseTime w' = now E (6 + calls w)%nat ∧
        calls w' = (7 + calls w)%nat ∧ o = Next tt)))).
Proof.
  intros Hmu. unfold_go. unfold Collection, handlingError. simpl.
  destruct (fault E (calls w)) as [e0|] eqn:Hdec; simpl.
  { eexists _, _. split; [reflexivity|]. simpl. repeat split; try done; try lia.
    left. eauto. }
  rewrite Hmu. simpl.
  destruct (fault E (S (S (calls w)))) as [e2|] eqn:Hgen; simpl.
  { eexists _, _. split; [reflexivity|]. simpl. repeat split; try done; try lia.
    right. repeat split; try done. left. repeat split; try done; try lia.
    eauto 6. }
  destruct (fault E (S (S (S (S (calls w)))))) as [e4|] eqn:Hset; simpl.
  { eexists _, _. split; [reflexivity|]. simpl. repeat split; try done; try lia.
    right. repeat split; try done. left. repeat split; try done; try lia.
    eauto 6. }
  destruct (fault E (S (S (S (S (S (calls w))))))) as [e5|] eqn:Hupd; simpl.
  { eexists _, _. split; [reflexivity|]. simpl. repeat split; try done; try lia.
    right. repeat split; try done. left. repeat split; try done; try lia.
    eauto 6. }
  match goal with
  | |- context [match ?x !! Ref_ID doc with _ => _ end] =>
      destruct (x !! Ref_ID doc) as [m|] eqn:Hm; simpl
  end.
  - eexists _, _. split; [reflexivity|]. simpl. repeat split; try done; try lia.
    right. repeat split; try done. right. done.
  - eexists _, _. split; [reflexivity|]. simpl. repeat split; try done; try lia.
    right. repeat split; try done. left. repeat split; try done; try lia.
    eauto 6.
Qed.

(** ** The listener's loops *)

Lemma documentsLoop_unfold (E : Env) (user ping : string)
    (docs : QuerySnapshot) (w : World) :
  documentsLoop E user ping docs w =
    let w1 := set_calls (S (calls w)) w in
    match fault E (calls w), docs with
    | Some e, _ => (Return (Some (Errorf "Documents.Next" e)), w1)
    | None, [] => (Next tt, w1)
    | None, doc :: docs' =>
        match handleDocument E user ping doc w1 with
        | (Next _, w2) => documentsLoop E user ping docs' w2
        | (Return r, w2) => (Return r, w2)
        | (Block, w2) => (Block, w2)
        end
    end.
Proof.
  destruct docs as [|doc docs']; simpl;
    unfold bind at 1; unfold library, external, bind, ret; simpl;
    destruct (fault E (calls w)); reflexivity.
Qed.

Lemma snapshotsLoop_unfold (E : Env) (user ping : string)
    (it : list QuerySnapshot) (w : World) :
  snapshotsLoop E user ping it w =
    let w1 := set_calls (S (calls w)) w in
    if decide (status.Code (fault E (calls w)) = codes.DeadlineExceeded) then
      (Return None, emit (Print ("Timeout reached" +:+ nl)) w1)
    else
      match fault E (calls w), it with
      | Some e, _ => (Return (Some (Errorf "Snapshots.Next" e)), w1)
      | None, [] => (Block, w1)
      | None, snap :: it' =>
          match documentsLoop E user ping snap w1 with
          | (Next _, w2) => snapshotsLoop E user ping it' w2
          | (Return r, w2) => (Return r, w2)
          | (Block, w2) => (Block, w2)
          end
      end.
Proof.
  destruct it as [|snap it']; simpl;
    unfold bind at 1; unfold library, external, bind, ret; simpl;
    destruct (decide _); try reflexivity;
    destruct (fault E (calls w)); reflexivity.
Qed.

(** An error of the handling of a message that ends the inner loop comes
    from one round of it, which began with the mutex free. *)
Lemma documentsLoop_error (E : Env) (user ping : string) (docs : QuerySnapshot) :
  ∀ (w : World) (o : Flow (option error) unit) (w' : World),
    mu w = false →
    documentsLoop E user ping docs w = (o, w') →
    mu w' = false ∧ (calls w < calls w')%nat ∧
    ∀ err, o = Return (Some err) → handlingError err →
           ∃ doc w0, doc ∈ docs ∧ mu w0 = false ∧ (calls w < calls w0)%nat ∧
                     handleDocument E user ping doc w0 = (Return (Some err), w').
Proof.
  induction docs as [|doc docs IH]; intros w o w' Hmu;
    rewrite documentsLoop_unfold; simpl.
  - destruct (fault E (calls w)) as [e|]; intros [= <- <-]; simpl;
      (split; [done|]); (split; [lia|]); [|done].
    intros err [= <-] [e' [H|[H|H]]]; discriminate.
  - destruct (fault E (calls w)) as [e|].
    { intros [= <- <-]; simpl. split; [done|]. split; [lia|].
      intros err [= <-] [e' [H|[H|H]]]; discriminate. }
    destruct (handleDocument_shared E user ping doc (set_calls (S (calls w)) w) Hmu)
      as (o1 & w2 & Hrun & Hmu2 & _ & Hcalls & _).
    rewrite Hrun. simpl in Hcalls. destruct o1 as [[]|r|].
    + intros Hloop. destruct (IH _ _ _ Hmu2 Hloop) as (Hmu' & Hc & Herr).
      split; [done|]. split; [lia|]. intros err Ho Hh.
      destruct (Herr err Ho Hh) as (doc' & w0 & Hin & Hmu0 & Hc0 & Hrun0).
      exists doc', w0. repeat split; try done; [by right | lia].
    + intros [= <- <-]. split; [done|]. split; [lia|]. intros err [= ->] Hh.
      exists doc, (set_calls (S (calls w)) w). repeat split; try done.
      * by left.
      * simpl. lia.
    + intros [= <- <-]. split; [done|]. split; [lia|]. done.
Qed.

Lemma snapshotsLoop_error (E : Env) (user ping : string) (it : list QuerySnapshot) :
  ∀ (w : World) (o : Flow (option error) (option error)) (w' : World),
    mu w = false →
    snapshotsLoop E user ping it w = (o, w') →
    ∀ err, o = Return (Some err) → handlingError err →
           ∃ doc w0, mu w0 = false ∧ (calls w < calls w0)%nat ∧
                     handleDocument E user ping doc w0 = (Return (Some err), w').
Proof.
  induction it as [|snap it IH]; intros w o w' Hmu;
    rewrite snapshotsLoop_unfold; simpl.
  - destruct (decide _); [intros [= <- <-]; done|].
    destruct (fault E (calls w)) as [e|]; intros [= <- <-]; [|done].
    intros err [= <-] [e' [H|[H|H]]]; discriminate.
  - destruct (decide _); [intros [= <- <-]; done|].
    destruct (fault E (calls w)) as [e|].
    { intros [= <- <-]. intros err [= <-] [e' [H|[H|H]]]; discriminate. }
    destruct (documentsLoop E user ping snap (set_calls (S (calls w)) w))
      as [o1 w2] eqn:Hdocs.
    destruct (documentsLoop_error E user ping snap (set_calls (S (calls w)) w)
                _ _ Hmu Hdocs)
      as (Hmu2 & Hc & Herr). simpl in Hc.
    destruct o1 as [[]|r|].
    + intros Hloop err Ho Hh.
      destruct (IH _ _ _ Hmu2 Hloop err Ho Hh) as (doc & w0 & Hmu0 & Hc0 & Hrun0).
      exists doc, w0. repeat split; try done. lia.
    + intros [= <- <-] err [= ->] Hh.
      destruct (Herr err eq_refl Hh) as (doc & w0 & _ & Hmu0 & Hc0 & Hrun0).
      exists doc, w0. repeat split; try done. simpl in Hc0. lia.
    + intros [= <- <-]. done.
Qed.

(** The outer loop only ends by [return] or waits. *)
Lemma snapshotsLoop_no_fall_through (E : Env) (user ping : string)
    (it : list QuerySnapshot) :
  ∀ (w : World) (r : option error) (w' : World),
    snapshotsLoop E user ping it w ≠ (Next r, w').
Proof.
  induction it as [|snap it' IH]; intros w r w';
    rewrite snapshotsLoop_unfold; simpl.
  - destruct (decide _); [done|]. by destruct (fault E (calls w)).
  - destruct (decide _); [done|]. destruct (fault E (calls w)); [done|].
    destruct (documentsLoop E user ping snap _) as [[?|?|] ?];
      [apply IH | done | done].
Qed.

(** The listener returns what its outer loop returns once the two
    initialisation calls succeeded. *)
Lemma listenForNewUserMessages_started {R} (E : Env) (it : list QuerySnapshot)
    (sa user ping : string) (w : World) :
  fault E (calls w) = None →
  fault E (1 + calls w)%nat = None →
  listenForNewUserMessages (R:=R) E it sa user ping w =
    call (snapshotsLoop E user ping it) (set_calls (2 + calls w)%nat w).
Proof.
  intros H0 H1. unfold listenForNewUserMessages.
  unfold call, bind at 1, library, external, bind at 1, ret. simpl.
  rewrite H0. unfold bind at 1. simpl in *. rewrite H1. reflexivity.
Qed.

Lemma handleDocument_failures (E : Env) (user ping : string)
    (doc : DocumentSnapshot) (w : World) :
  let c := calls w in
  mu w = false →
  fault E c = None →
  ∃ (o : Flow (option error) unit) (w' : World),
    handleDocument E user ping doc w = (o, w') ∧
    (∀ e, fault E (2 + c)%nat = Some e →
          o = Return (Some (Errorf "error generating response"
                              (Errorf "gemini model error" e)))) ∧
    (∀ e, fault E (2 + c)%nat = None →
          fault E (4 + c)%nat = Some e →
          o = Return (Some (Errorf "error writing response message" e))) ∧
    (∀ e, fault E (2 + c)%nat = None →
          fault E (4 + c)%nat = None →
          fault E (5 + c)%nat = Some e →
          o = Return (Some (Errorf "error marking message as processed" e))).
Proof.
  intros c Hmu Hdec. subst c. unfold_go. unfold Collection. simpl.
  rewrite Hdec. simpl. rewrite Hmu. simpl.
  destruct (fault E (S (S (calls w)))) as [e2|] eqn:Hgen; simpl.
  { eexists _, _. split; [reflexivity|]. repeat split; intros; simplify_eq; done. }
  destruct (fault E (S (S (S (S (calls w)))))) as [e4|] eqn:Hset; simpl.
  { eexists _, _. split; [reflexivity|]. repeat split; intros; simplify_eq; done. }
  destruct (fault E (S (S (S (S (S (calls w))))))) as [e5|] eqn:Hupd; simpl.
  { eexists _, _. split; [reflexivity|]. repeat split; intros; simplify_eq; done. }
  match goal with
  | |- context [match ?x !! Ref_ID doc with _ => _ end] =>
      destruct (x !! Ref_ID doc) as [m|] eqn:Hm; simpl
  end; eexists _, _; (split; [reflexivity|]); repeat split; intros; simplify_eq.
Qed.

(** C10. While a message is handled (mutex taken, document decoded), a
    failure of the generation, of the reply write or of the update of the
    processed flag makes the round return the matching error; and whenever
    the listener returns such an error, it comes from a round that began
    with the mutex free, after which [lastUserMessage] is the time read at
    the start of that round, [lastResponseTime] is what it was when the
    round began, and the mutex is free again. *)
Theorem handling_error_is_not_rolled_back (E : Env) (user ping : string) :
  (∀ (doc : DocumentSnapshot) (w : World),
      let c := calls w in
      mu w = false →
      fault E c = None →
      ∃ (o : Flow (option error) unit) (w' : World),
        handleDocument E user ping doc w = (o, w') ∧
        (∀ e, fault E (2 + c)%nat = Some e →
              o = Return (Some (Errorf "error generating response"
                                  (Errorf "gemini model error" e)))) ∧
        (∀ e, fault E (2 + c)%nat = None →
              fault E (4 + c)%nat = Some e →
              o = Return (Some (Errorf "error writing response message" e))) ∧
        (∀ e, fault E (2 + c)%nat = None →
              fault E (4 + c)%nat = None →
              fault E (5 + c)%nat = Some e →
              o = Return (Some (Errorf "error marking message as processed" e))) ∧
        (∀ r, o = Return r →
              lastUserMessage w' = now E (1 + c)%nat ∧
              lastResponseTime w' = lastResponseTime w ∧
              mu w' = false)) ∧
  (∀ (it : list QuerySnapshot) (sa : string) (w w' : World) (err : error),
      mu w = false →
      listenForNewUserMessages (R:=unit) E it sa user ping w
        = (Next (Some err), w') →
      handlingError err →
      ∃ (doc : DocumentSnapshot) (w0 : World),
        mu w0 = false ∧
        (calls w < calls w0)%nat ∧
        handleDocument E user ping doc w0 = (Return (Some err), w') ∧
        lastUserMessage w' = now E (1 + calls w0)%nat ∧
        lastResponseTime w' = lastResponseTime w0 ∧
        mu w' = false).
Proof.
  split.
  - intros doc w c Hmu Hdec. subst c.
    destruct (handleDocument_failures E user ping doc w Hmu Hdec)
      as (o & w' & Hrun & Hgen & Hset & Hupd).
    exists o, w'. repeat (split; [done|]).
    destruct (handleDocument_shared E user ping doc w Hmu)
      as (o1 & w1 & Hrun1 & Hmu1 & _ & _ & Hcases).
    rewrite Hrun in Hrun1. injection Hrun1 as <- <-.
    intros r ->.
    destruct Hcases as [(_ & _ & e & He & _)|(_ & Huser & [(Hresp & _)|(_ & _ & ?)])];
      [congruence | done | done].
  - intros it sa w w' err Hmu Hrun Hh.
    assert (Hloop : ∃ w1 o, mu w1 = false ∧ (calls w ≤ calls w1)%nat ∧
              snapshotsLoop E user ping it w1 = (o, w') ∧ o = Return (Some err)).
    { revert Hrun. unfold listenForNewUserMessages.
      unfold call, bind at 1, library, external, bind at 1, ret. simpl.
      destruct (fault E (calls w)) as [e|]; simpl.
      { intros [= <- <-]. destruct Hh as [e' [H|[H|H]]]; discriminate. }
      unfold bind at 1. simpl.
      destruct (fault E (S (calls w))) as [e|]; simpl.
      { intros [= <- <-]. destruct Hh as [e' [H|[H|H]]]; discriminate. }
      destruct (snapshotsLoop E user ping it _) as [o w2] eqn:Hloop.
      destruct o as [r|r|]; intros [= -> ->].
      - exfalso. by apply snapshotsLoop_no_fall_through in Hloop.
      - eexists _, _. split; [|split; [|split; [exact Hloop|done]]];
          [done | simpl; lia]. }
    destruct Hloop as (w1 & o & Hmu1 & Hc1 & Hloop & ->).
    destruct (snapshotsLoop_error E user ping it w1 _ w' Hmu1 Hloop err eq_refl Hh)
      as (doc & w0 & Hmu0 & Hc0 & Hrun0).
    destruct (handleDocument_shared E user ping doc w0 Hmu0)
      as (o1 & w2 & Hrun1 & Hmu2 & _ & _ & Hcases).
    rewrite Hrun0 in Hrun1. injection Hrun1 as <- <-.
    exists doc, w0. split; [done|]. split; [lia|]. split; [done|].
    destruct Hcases as [(_ & _ & e & _ & He)|(_ & Huser & [(Hresp & _)|(_ & _ & ?)])].
    + injection He as ->. destruct Hh as [e' [H|[H|H]]]; discriminate.
    + done.
    + done.
Qed.

(** ** The end of the subscription *)

Lemma snapshotsLoop_rounds (E : Env) (user ping : string)
    (pre post : list QuerySnapshot) :
  ∀ w w1 : World,
    rounds E user ping pre w = Some w1 →
    snapshotsLoop E user ping (pre ++ post)%list w
    = snapshotsLoop E user ping post w1.
Proof.
  induction pre as [|snap pre IH]; intros w w1 Hrounds; simpl in Hrounds.
  - by injection Hrounds as ->.
  - destruct (fault E (calls w)) as [e|] eqn:Hnext; [done|].
    destruct (documentsLoop E user ping snap _) as [[[]|r|] w2] eqn:Hdocs;
      [|done|done].
    rewrite (snapshotsLoop_unfold E user ping ((snap :: pre) ++ post)%list).
    cbn zeta. rewrite Hnext. rewrite decide_False by done.
    change ((snap :: pre) ++ post)%list with (snap :: (pre ++ post))%list.
    cbn iota. rewrite Hdocs. by apply IH.
Qed.

(** C6. When the listener has started and the snapshots delivered so far
    were handled, a failure of the subscription's [Next] whose code is
    DeadlineExceeded makes the listener print "Timeout reached" and return
    nil; with any other code, the listener returns a non-nil error that
    wraps it. *)
Theorem timeout_ends_listener_cleanly {R} (E : Env)
    (pre post : list QuerySnapshot) (sa user ping : string)
    (w w1 : World) (e : error) :
  fault E (calls w) = None →
  fault E (1 + calls w)%nat = None →
  rounds E user ping pre (set_calls (2 + calls w)%nat w) = Some w1 →
  fault E (calls w1) = Some e →
  (status.Code (Some e) = codes.DeadlineExceeded →
   listenForNewUserMessages (R:=R) E (pre ++ post)%list sa user ping w =
     (Next None,
      emit (Print ("Timeout reached" +:+ nl)) (set_calls (S (calls w1)) w1))) ∧
  (status.Code (Some e) ≠ codes.DeadlineExceeded →
   listenForNewUserMessages (R:=R) E (pre ++ post)%list sa user ping w =
     (Next (Some (Errorf "Snapshots.Next" e)), set_calls (S (calls w1)) w1)).
Proof.
  intros Happ Hfs Hrounds Hnext.
  rewrite (listenForNewUserMessages_started E _ sa user ping w Happ Hfs).
  unfold call. rewrite (snapshotsLoop_rounds E user ping pre post _ _ Hrounds).
  rewrite snapshotsLoop_unfold. simpl. rewrite Hnext.
  split; intros Hcode.
  - by rewrite decide_True.
  - rewrite decide_False by done. by destruct post.
Qed.

(** ** The backlog drain *)



Lemma Collection_updated (c id : string) (m : Message) (w w' : World) :
  store w' = <[c := <[id := m]> (Collection c w)]> (store w) →
  (∀ id', Collection c w' !! id' =
            if decide (id' = id) then Some m else Collection c w !! id') ∧
  (∀ c', c' ≠ c → store w' !! c' = store w !! c').
Proof.
  intros Hs. split.
  - intros id'. unfold Collection at 1. rewrite Hs, lookup_insert_eq. simpl.
    destruct (decide (id' = id)) as [->|Hne].
    + by rewrite lookup_insert_eq.
    + by rewrite lookup_insert_ne.
  - intros c' Hne. by rewrite Hs, lookup_insert_ne.
Qed.

(** What an update of the processed flag does. *)
Lemma Ref_Update_run {R} (E : Env) (c id : string) (w : World) :
  ∃ (r : option error) (w' : World),
    Ref_Update (R:=R) E c id w = (Next r, w') ∧
    calls w' = S (calls w) ∧
    lastUserMessage w' = lastUserMessage w ∧
    conversationSummary w' = conversationSummary w ∧
    lastResponseTime w' = lastResponseTime w ∧
    mu w' = mu w ∧
    events w' = (events w ++ [DocUpdate c id r])%list ∧
    match r with
    | None =>
        fault E (calls w) = None ∧
        ∃ m, Collection c w !! id = Some m ∧
             store w' = <[c := <[id := markProcessed m]> (Collection c w)]> (store w)
    | Some e =>
        store w' = store w ∧
        (fault E (calls w) = Some e ∨
         fault E (calls w) = None ∧ Collection c w !! id = None)
    end.
Proof.
  unfold_go. simpl.
  destruct (fault E (calls w)) as [e|] eqn:Hfault; simpl.
  { eexists _, _. split; [reflexivity|]. simpl. repeat split; auto. }
  change (Collection c (set_calls (S (calls w)) w)) with (Collection c w).
  destruct (Collection c w !! id) as [m|] eqn:Hm; simpl.
  - eexists _, _. split; [reflexivity|]. simpl. repeat split; eauto.
  - eexists _, _. split; [reflexivity|]. simpl. repeat split; auto.
Qed.

Lemma drainLoop_unfold (E : Env) (user : string)
    (iter : list DocumentSnapshot) (w : World) :
  drainLoop E user iter w =
    let w1 := set_calls (S (calls w)) w in
    match fault E (calls w), iter with
    | Some e, _ =>
        (Return (Some (Errorf "error iterating through unprocessed messages" e)),
         w1)
    | None, [] => (Next tt, w1)
    | None, doc :: iter' =>
        match Ref_Update (R:=option error) E user (Ref_ID doc) w1 with
        | (Next (Some e), w2) =>
            (Return (Some (Errorf "error marking message as processed" e)), w2)
        | (Next None, w2) => drainLoop E user iter' (emit (drainPrint doc) w2)
        | (Return r, w2) => (Return r, w2)
        | (Block, w2) => (Block, w2)
        end
    end.
Proof.
  destruct iter as [|doc iter']; simpl;
    unfold bind at 1; unfold library, external, bind at 1, ret; simpl;
    destruct (fault E (calls w)); try reflexivity.
  unfold bind at 1.
  destruct (Ref_Update E user (Ref_ID doc) _) as [[[e|]|r|] w2]; reflexivity.
Qed.


(** The drain whatever the collaborators do: it marks a prefix [visited]
    of the iterator's documents, touches no other document, and its only
    effects are updates of documents of the iterator and printed lines. *)
Lemma drainLoop_any (E : Env) (user : string) (iter : list DocumentSnapshot) :
  ∀ (w : World) (o : Flow (option error) unit) (w' : World),
    drainLoop E user iter w = (o, w') →
    ∃ (visited remaining : list DocumentSnapshot) (evs : list Event),
      iter = (visited ++ remaining)%list ∧
      (∀ id, Collection user w' !! id =
               if decide (id ∈ Ref_ID <$> visited)
               then markProcessed <$> Collection user w !! id
               else Collection user w !! id) ∧
      (∀ c, c ≠ user → store w' !! c = store w !! c) ∧
      events w' = (events w ++ evs)%list ∧
      (∀ e, e ∈ evs →
            ∃ d, d ∈ iter ∧
                 ((∃ err, e = DocUpdate user (Ref_ID d) err) ∨ e = drainPrint d)) ∧
      (o = Next tt → remaining = []) ∧
      (visited = [] → store w' = store w) ∧
      o ≠ Return None.
Proof.
  induction iter as [|doc iter IH]; intros w o w';
    rewrite drainLoop_unfold; cbn zeta.
  - destruct (fault E (calls w)) as [e|]; intros [= <- <-];
      exists [], [], []; simpl; rewrite app_nil_r;
      (repeat split; try done); intros ? ?%elem_of_nil; done.
  - destruct (fault E (calls w)) as [e|].
    { intros [= <- <-]. exists [], (doc :: iter), []. simpl. rewrite app_nil_r.
      (repeat split; try done); intros ? ?%elem_of_nil; done. }
    destruct (Ref_Update_run (R:=option error) E user (Ref_ID doc)
                (set_calls (S (calls w)) w))
      as (r & w2 & Hrun & _ & _ & _ & _ & _ & Hev2 & Hres).
    simpl in Hev2. rewrite Hrun. destruct r as [e|].
    + destruct Hres as [Hstore _]. simpl in Hstore.
      intros [= <- <-]. exists [], (doc :: iter), [DocUpdate user (Ref_ID doc) (Some e)].
      simpl. split; [done|]. unfold Collection. rewrite Hstore.
      split; [done|]. split; [done|]. split; [done|].
      split; [|done]. intros ev ->%list_elem_of_singleton.
      exists doc. split; [by left | left; eauto].
    + destruct Hres as (_ & m & Hm & Hstore).
      change (Collection user (set_calls (S (calls w)) w))
        with (Collection user w) in Hm, Hstore.
      change (store (set_calls (S (calls w)) w)) with (store w) in Hstore.
      destruct (Collection_updated user (Ref_ID doc) (markProcessed m) w
                  (emit (drainPrint doc) w2) Hstore) as [Hcol Hother].
      intros Hloop.
      destruct (IH _ _ _ Hloop)
        as (visited & remaining & evs & -> & Hcol1 & Ho1 & Hev1 & Hevs & Hdone & _ & Hret).
      exists (doc :: visited), remaining,
        (DocUpdate user (Ref_ID doc) None :: drainPrint doc :: evs).
      split; [done|]. split.
      { intros id. rewrite Hcol1, !Hcol, fmap_cons.
        destruct (decide (id = Ref_ID doc)) as [->|Hne].
        - rewrite Hm, (decide_True (P := _ ∈ _ :: _)) by (by left).
          case_decide; simpl; by destruct m.
        - destruct (decide (id ∈ Ref_ID <$> visited)) as [Hin|Hnin].
          + by rewrite (decide_True (P := _ ∈ _ :: _)) by (by right).
          + rewrite (decide_False (P := _ ∈ _ :: _)); [done|].
            intros [?|?]%elem_of_cons; done. }
      split; [intros c Hc; by rewrite Ho1, Hother|].
      split; [simpl in Hev1; by rewrite Hev1, Hev2, <- !app_assoc|].
      split; [|done].
      intros ev [->|[->|Hin]%elem_of_cons]%elem_of_cons.
      * exists doc. split; [by left | left; eauto].
      * exists doc. split; [by left | by right].
      * destruct (Hevs ev Hin) as (d & Hd & Hev).
        exists d. split; [by right | done].
Qed.

Lemma backlog_spec (E : Env) (user : string) (w : World) :
  fair E →
  (∀ d, d ∈ backlog E user w ↔
        Collection user w !! Ref_ID d = Some (Data d) ∧ Processed (Data d) = false) ∧
  NoDup (Ref_ID <$> backlog E user w).
Proof.
  intros [_ Hquery]. unfold backlog. split.
  - intros [id m]. rewrite list_elem_of_fmap. split.
    + intros ([id' m'] & [= -> ->] & Hin). rewrite Hquery in Hin.
      apply list_elem_of_filter in Hin as [Hp Hin].
      by apply elem_of_map_to_list in Hin.
    + intros [Hm Hp]. exists (id, m). split; [done|]. rewrite Hquery.
      apply list_elem_of_filter. split; [done|]. by apply elem_of_map_to_list.
  - rewrite <- list_fmap_compose.
    rewrite (fmap_Permutation _ _ _ (Hquery _ _)).
    change (Ref_ID ∘ snapshotOf) with (fst : string * Message → string).
    apply NoDup_fmap_fst.
    + intros id m1 m2 [_ H1]%list_elem_of_filter [_ H2]%list_elem_of_filter.
      apply elem_of_map_to_list in H1, H2. congruence.
    + apply NoDup_filter, NoDup_map_to_list.
Qed.

Lemma markExistingMessagesAsProcessed_started {R} (E : Env) (sa user : string)
    (w : World) :
  fault E (calls w) = None →
  fault E (1 + calls w)%nat = None →
  markExistingMessagesAsProcessed (R:=R) E sa user w =
    match drainLoop E user (backlog E user w) (set_calls (2 + calls w)%nat w) with
    | (Next _, w') => (Next None, w')
    | (Return r, w') => (Next r, w')
    | (Block, w') => (Block, w')
    end.
Proof.
  intros H0 H1. unfold markExistingMessagesAsProcessed, backlog.
  unfold call, bind at 1, library, external, bind at 1, ret. simpl.
  rewrite H0. unfold bind at 1. simpl in *. rewrite H1.
  unfold bind at 1, Where_unprocessed_Documents, gets. simpl.
  unfold bind, return_.
  change (Collection user (set_calls (S (S (calls w))) (set_calls (S (calls w)) w)))
    with (Collection user w).
  by destruct (drainLoop E user _ _) as [[[]|r|] w'].
Qed.




(** The whole drain whatever the collaborators do. *)
Lemma markExistingMessagesAsProcessed_any {R} (E : Env) (sa user : string)
    (w : World) :
  ∃ (o : Flow R (option error)) (w' : World)
    (visited remaining : list DocumentSnapshot) (evs : list Event),
    markExistingMessagesAsProcessed E sa user w = (o, w') ∧
    backlog E user w = (visited ++ remaining)%list ∧
    (∀ id, Collection user w' !! id =
             if decide (id ∈ Ref_ID <$> visited)
             then markProcessed <$> Collection user w !! id
             else Collection user w !! id) ∧
    events w' = (events w ++ evs)%list ∧
    (∀ e, e ∈ evs →
          ∃ d, d ∈ backlog E user w ∧
               ((∃ err, e = DocUpdate user (Ref_ID d) err) ∨ e = drainPrint d)) ∧
    (o = Next None → remaining = []) ∧
    (visited = [] → store w' = store w).
Proof.
  destruct (fault E (calls w)) as [e|] eqn:Happ.
  { unfold markExistingMessagesAsProcessed.
    unfold call, bind at 1, library, external, bind at 1, ret. simpl.
    rewrite Happ. simpl.
    eexists _, _, [], (backlog E user w), []. split; [reflexivity|]. simpl.
    rewrite app_nil_r. repeat split; try done. intros ? ?%elem_of_nil; done. }
  destruct (fault E (1 + calls w)%nat) as [e|] eqn:Hfs.
  { unfold markExistingMessagesAsProcessed.
    unfold call, bind at 1, library, external, bind at 1, ret. simpl.
    rewrite Happ. unfold bind at 1. simpl in *. rewrite Hfs. simpl.
    eexists _, _, [], (backlog E user w), []. split; [reflexivity|]. simpl.
    rewrite app_nil_r. repeat split; try done. intros ? ?%elem_of_nil; done. }
  rewrite (markExistingMessagesAsProcessed_started E sa user w Happ Hfs).
  destruct (drainLoop E user (backlog E user w) _) as [o w'] eqn:Hloop.
  destruct (drainLoop_any E user _ _ _ _ Hloop)
    as (visited & remaining & evs & Hiter & Hcol & _ & Hev & Hevs & Hdone & Hstore & Hret).
  assert (Hcol' : ∀ id, Collection user w' !! id =
            if decide (id ∈ Ref_ID <$> visited)
            then markProcessed <$> Collection user w !! id
            else Collection user w !! id) by exact Hcol.
  simpl in Hev, Hstore.
  destruct o as [[]|r|]; eexists _, w', visited, remaining, evs;
    (split; [reflexivity|]); repeat split; try done.
  - intros _. by apply Hdone.
  - by intros [= ->].
Qed.

(** C8. After a drain that returned nil, a second drain over the same
    message collection (no message created in between) updates nothing: it
    has no effect at all and leaves the store as it is, whatever the
    collaborators do.  More generally, every update that any drain issues is
    for a document whose processed flag was false when the drain began. *)
Theorem drain_is_idempotent (E E' : Env) (sa user : string) (w : World) :
  fair E →
  fair E' →
  (∀ w1 w1' : World,
      markExistingMessagesAsProcessed (R:=unit) E sa user w = (Next None, w1) →
      Collection user w1' = Collection user w1 →
      ∃ (o : Flow unit (option error)) (w2 : World),
        markExistingMessagesAsProcessed E' sa user w1' = (o, w2) ∧
        events w2 = events w1' ∧
        store w2 = store w1') ∧
  (∃ (o : Flow unit (option error)) (w' : World) (evs : list Event),
      markExistingMessagesAsProcessed E sa user w = (o, w') ∧
      events w' = (events w ++ evs)%list ∧
      ∀ c id err,
        DocUpdate c id err ∈ evs →
        c = user ∧ ∃ m, Collection user w !! id = Some m ∧ Processed m = false).
Proof.
  intros Hfair Hfair'. split.
  - intros w1 w1' Hrun Hsame.
    destruct (markExistingMessagesAsProcessed_any (R:=unit) E sa user w)
      as (o & w0 & visited & remaining & evs & Hrun0 & Hiter & Hcol & _ & _ & Hdone & _).
    rewrite Hrun in Hrun0. injection Hrun0 as <- <-.
    rewrite (Hdone eq_refl), app_nil_r in Hiter. subst visited.
    destruct (backlog_spec E user w Hfair) as [Hback _].
    assert (Hall : ∀ id m, Collection user w1 !! id = Some m → Processed m = true).
    { intros id m. rewrite Hcol. case_decide as Hin.
      - destruct (Collection user w !! id) as [m0|]; [|done].
        by intros [= <-].
      - intros Hm. destruct (Processed m) eqn:Hp; [done|]. exfalso.
        apply Hin, list_elem_of_fmap. exists {| Ref_ID := id; Data := m |}.
        split; [done|]. by apply Hback. }
    destruct (backlog_spec E' user w1' Hfair') as [Hback' _].
    assert (Hempty : backlog E' user w1' = []).
    { destruct (backlog E' user w1') as [|d l] eqn:Hb; [done|]. exfalso.
      assert (Hd : d ∈ d :: l) by (by left).
      apply Hback' in Hd as [Hd Hp]. rewrite Hsame in Hd.
      apply Hall in Hd. congruence. }
    destruct (markExistingMessagesAsProcessed_any (R:=unit) E' sa user w1')
      as (o & w2 & visited2 & remaining2 & evs2 & Hrun2 & Hiter2 & _ & Hev2
          & Hevs2 & _ & Hstore2).
    rewrite Hempty in Hiter2, Hevs2.
    symmetry in Hiter2. apply app_eq_nil in Hiter2 as [-> ->].
    exists o, w2. split; [done|]. split; [|by apply Hstore2].
    destruct evs2 as [|ev evs2]; [by rewrite app_nil_r in Hev2|]. exfalso.
    destruct (Hevs2 ev) as (d & Hd & _); [by left|]. by apply elem_of_nil in Hd.
  - destruct (markExistingMessagesAsProcessed_any (R:=unit) E sa user w)
      as (o & w' & visited & remaining & evs & Hrun & _ & _ & Hev & Hevs & _).
    exists o, w', evs. split; [done|]. split; [done|].
    intros c id err Hin.
    destruct (Hevs _ Hin) as (d & Hd & [[err' [= -> -> ->]] | Hprint]);
      [|discriminate].
    split; [done|]. exists (Data d).
    by apply (backlog_spec E user w Hfair).
Qed.

(** ** The shared variables over the life of the process *)

(** What one tick does to the shared variables, whatever the collaborators
    do. *)
Lemma monitorTick_shared (E : Env) (ping poll : string) (w : World) :
  mu w = false →
  ∃ (o : Flow (option error) unit) (w' : World),
    monitorTick E ping poll w = (o, w') ∧
    mu w' = false ∧
    (calls w < calls w')%nat ∧
    lastUserMessage w' = lastUserMessage w ∧
    (lastResponseTime w' = lastResponseTime w ∨
     lastResponseTime w' = now E (calls w)) ∧
    (fault E (1 + calls w)%nat = None →
     fault E (2 + calls w)%nat = None →
     conversationSummary w' = tickSummary E poll w) ∧
    (fault E (1 + calls w)%nat ≠ None ∨ fault E (2 + calls w)%nat ≠ None →
     conversationSummary w' = conversationSummary w).
Proof.
  intros Hmu.
  destruct (fault E (1 + calls w)%nat) as [e1|] eqn:Hget.
  { unfold_go. simpl in *. rewrite Hmu. simpl. rewrite Hget. simpl.
    eexists _, _. split; [reflexivity|]. simpl.
    repeat split; auto; try lia. done. }
  destruct (fault E (2 + calls w)%nat) as [e2|] eqn:Hdec.
  { unfold_go. simpl in *. rewrite Hmu. simpl. rewrite Hget. simpl.
    rewrite Hdec. simpl.
    eexists _, _. split; [reflexivity|]. simpl.
    repeat split; auto; try lia. done. }
  assert (Hfetch := fetchPollStatus_fetched (R:=option error) E poll
                      (set_calls (S (calls w)) (set_mu true w)) Hget Hdec).
  cbn zeta in Hfetch.
  unfold monitorTick.
  unfold bind at 1, mu_Lock. rewrite Hmu.
  unfold bind at 1, time_Now, bind at 1, external, ret. cbn [fst snd calls set_mu].
  unfold bind at 1.
  change (set_calls (S (calls w)) (set_mu true w))
    with (set_calls (S (calls (set_mu true w))) (set_mu true w)).
  change (calls (set_mu true w)) with (calls w) at 1.
  rewrite Hfetch. clear Hfetch.
  unfold updateConversationSummary, idleDue, pollUpdateDue.
  unfold_go. simpl.
  destruct (_ && _); simpl.
  - destruct (fault E (S (S (S (calls w))))) as [e3|]; simpl.
    { eexists _, _. split; [reflexivity|]. simpl.
      repeat split; auto; try lia. intros [?|?]; done. }
    destruct (fault E (S (S (S (S (S (calls w))))))) as [e5|]; simpl;
      eexists _, _; (split; [reflexivity|]); simpl;
      repeat split; auto; try lia; intros [?|?]; done.
  - destruct (_ >=? _); simpl.
    + destruct (fault E (S (S (S (calls w))))) as [e3|]; simpl.
      { eexists _, _. split; [reflexivity|]. simpl.
        repeat split; auto; try lia. intros [?|?]; done. }
      destruct (fault E (S (S (S (S (S (calls w))))))) as [e5|]; simpl;
        eexists _, _; (split; [reflexivity|]); simpl;
        repeat split; auto; try lia; intros [?|?]; done.
    + eexists _, _; (split; [reflexivity|]); simpl;
        repeat split; auto; try lia; intros [?|?]; done.
Qed.

Lemma step_settled (E : Env) (s : Step) (w : World) :
  monotone E →
  settled E w →
  settled E (step E s w) ∧
  lastUserMessage w ≤ lastUserMessage (step E s w) ∧
  lastResponseTime w ≤ lastResponseTime (step E s w).
Proof.
  intros Hmono (Hmu & Hu & Hr). unfold settled.
  destruct s as [user ping doc | ping poll | db]; simpl.
  3:{ assert (Hn : now E (calls w) ≤ now E (S (calls w))) by (apply Hmono; lia).
      repeat split; try done; lia. }
  - destruct (handleDocument_shared E user ping doc w Hmu)
      as (o & w' & -> & Hmu' & _ & Hc & Hcases). simpl.
    assert (H1 : now E (calls w) ≤ now E (1 + calls w)%nat) by (apply Hmono; lia).
    assert (H6 : now E (calls w) ≤ now E (6 + calls w)%nat) by (apply Hmono; lia).
    assert (Hn : now E (calls w) ≤ now E (calls w')) by (apply Hmono; lia).
    destruct Hcases as [(-> & -> & _) | (_ & -> & [(-> & Hc' & _) | (-> & Hc' & _)])].
    + repeat split; try done; lia.
    + assert (now E (1 + calls w)%nat ≤ now E (calls w')) by (apply Hmono; lia).
      repeat split; try done; lia.
    + assert (now E (1 + calls w)%nat ≤ now E (calls w')) by (apply Hmono; lia).
      assert (now E (6 + calls w)%nat ≤ now E (calls w')) by (apply Hmono; lia).
      repeat split; try done; lia.
  - destruct (monitorTick_shared E ping poll w Hmu)
      as (o & w' & -> & Hmu' & Hc & Huser & Hresp & _). simpl.
    assert (Hn : now E (calls w) ≤ now E (calls w')) by (apply Hmono; lia).
    rewrite Huser.
    destruct Hresp as [-> | ->]; repeat split; try done; lia.
Qed.

Lemma run_app (E : Env) (earlier later : list Step) (w : World) :
  run E (earlier ++ later) w = run E later (run E earlier w).
Proof. unfold run. by rewrite foldl_app. Qed.

Lemma run_settled (E : Env) (steps : list Step) :
  monotone E →
  ∀ w : World,
    settled E w →
    settled E (run E steps w) ∧
    lastUserMessage w ≤ lastUserMessage (run E steps w) ∧
    lastResponseTime w ≤ lastResponseTime (run E steps w).
Proof.
  intros Hmono. induction steps as [|s steps IH]; intros w Hw; simpl.
  - split; [done | lia].
  - destruct (step_settled E s w Hmono Hw) as (Hw' & Hu & Hr).
    destruct (IH _ Hw') as (Hw'' & Hu' & Hr'). fold (run E steps (step E s w)).
    split; [done | lia].
Qed.

(** C3. Let message handlings and monitor ticks, which take the mutex, run
    one after the other in any order and number, with any external calls
    made outside the mutex in between, with a clock that never runs
    backwards, from a world whose timestamps are not ahead of the clock.  Then [lastUserMessage] and [lastResponseTime] never
    decrease from one point of the run to a later one; a tick that fetches
    and decodes the poll document leaves in [conversationSummary] the text
    computed from that document; a tick that fails to, and any message
    handling, leave the summary as it was. *)
Theorem timestamps_are_monotone (E : Env) (w0 : World) :
  monotone E →
  mu w0 = false →
  lastUserMessage w0 ≤ now E (calls w0) →
  lastResponseTime w0 ≤ now E (calls w0) →
  (∀ earlier later : list Step,
      lastUserMessage (run E earlier w0)
        ≤ lastUserMessage (run E (earlier ++ later) w0) ∧
      lastResponseTime (run E earlier w0)
        ≤ lastResponseTime (run E (earlier ++ later) w0)) ∧
  (∀ (steps : list Step) (ping poll : string),
      let w := run E steps w0 in
      let w' := run E (steps ++ [Tick ping poll]) w0 in
      (fault E (1 + calls w)%nat = None →
       fault E (2 + calls w)%nat = None →
       conversationSummary w' = tickSummary E poll w) ∧
      (fault E (1 + calls w)%nat ≠ None ∨ fault E (2 + calls w)%nat ≠ None →
       conversationSummary w' = conversationSummary w)) ∧
  (∀ (steps : list Step) (user ping : string) (doc : DocumentSnapshot),
      conversationSummary (run E (steps ++ [HandleMessage user ping doc]) w0)
      = conversationSummary (run E steps w0)).
Proof.
  intros Hmono Hmu Hu Hr.
  assert (Hw0 : settled E w0) by done.
  split; [|split].
  - intros earlier later. rewrite run_app.
    destruct (run_settled E earlier Hmono w0 Hw0) as (Hw1 & _).
    destruct (run_settled E later Hmono _ Hw1) as (_ & Hu' & Hr').
    done.
  - intros steps ping poll w w'. subst w w'. rewrite run_app. simpl.
    destruct (run_settled E steps Hmono w0 Hw0) as ((Hmu1 & _) & _).
    destruct (monitorTick_shared E ping poll _ Hmu1)
      as (o & w' & -> & _ & _ & _ & _ & Hok & Hfail).
    done.
  - intros steps user ping doc. rewrite run_app. simpl.
    destruct (run_settled E steps Hmono w0 Hw0) as ((Hmu1 & _) & _).
    by destruct (handleDocument_shared E user ping doc _ Hmu1)
      as (o & w' & -> & _ & Hsum & _).
Qed.

(** * The mutex *)

(** A step of the listener changes the mutex only by taking it at line 177
    or releasing it at lines 183, 190, 199 and 208. *)
Lemma listenerStep_mutex (E : Env) (user ping : string)
    (pc pc' : ListenerPc) (w w' : World) :
  listenerStep E user ping pc w = Some (pc', w') →
  match listenerHolds pc, listenerHolds pc' with
  | false, true => mu w = false ∧ mu w' = true
  | true, false => mu w' = false
  | _, _ => mu w' = mu w
  end.
Proof.
  intros Hstep. destruct pc; simpl in Hstep; unfold exec in Hstep;
    unfold_go_in Hstep; simpl in Hstep;
    repeat case_match; simplify_option_eq; auto.
Qed.

Lemma monitorStep_mutex (E : Env) (ping poll : string)
    (pc pc' : MonitorPc) (w w' : World) :
  monitorStep E ping poll pc w = Some (pc', w') →
  match monitorHolds pc, monitorHolds pc' with
  | false, true => mu w = false ∧ mu w' = true
  | true, false => mu w' = false
  | _, _ => mu w' = mu w
  end.
Proof.
  intros Hstep. destruct pc; simpl in Hstep; unfold exec in Hstep;
    unfold_go_in Hstep; simpl in Hstep;
    repeat case_match; simplify_option_eq; auto.
Qed.

Lemma exclusive_step (E : Env) (user ping poll : string) (c c' : Config) :
  exclusive c → anyStep E user ping poll c c' → exclusive c'.
Proof.
  intros [Hmu Hex] [t Hstep]. unfold exclusive in *.
  destruct Hstep as [c doc Hpc | c pc' w' Hstep | c Hpc | c pc' w' Hstep]; simpl.
  - rewrite Hpc in *. simpl in *. done.
  - apply listenerStep_mutex in Hstep.
    destruct (listenerHolds (listener c)), (listenerHolds pc'),
      (monitorHolds (monitor c)); simpl in *;
      destruct Hstep; split; congruence.
  - rewrite Hpc in *. simpl in *. rewrite !orb_false_r, !andb_false_r in *. done.
  - apply monitorStep_mutex in Hstep.
    destruct (listenerHolds (listener c)), (monitorHolds (monitor c)),
      (monitorHolds pc'); simpl in *;
      destruct Hstep; split; congruence.
Qed.

Lemma exclusive_reachable (E : Env) (user ping poll : string) (c0 c : Config) :
  exclusive c0 → rtc (anyStep E user ping poll) c0 c → exclusive c.
Proof.
  intros H0 Hrun. induction Hrun as [|c1 c2 c3 Hstep _ IH]; [done|].
  apply IH. by apply (exclusive_step E user ping poll c1).
Qed.

(** Run without interruption from the decoding of a document, the steps of
    the listener are one round of its inner loop. *)
Lemma listenerRun_handleDocument (E : Env) (user ping : string)
    (doc : DocumentSnapshot) (w : World) :
  mu w = false →
  let r := handleDocument E user ping doc w in
  listenerRun E user ping 9 (LDecode doc) w =
    (match r.1 with
     | Next _ => LIdle
     | Return err => LReturned err
     | Block => LLock doc
     end, r.2).
Proof.
  intros Hmu. unfold listenerRun, listenerStep, exec, mbind, option_bind.
  unfold_go. unfold Collection. simpl.
  destruct (fault E (calls w)) as [e0|] eqn:Hdec; simpl; [reflexivity|].
  rewrite Hmu. simpl.
  destruct (fault E (S (S (calls w)))) as [e2|] eqn:Hgen; simpl; [reflexivity|].
  destruct (fault E (S (S (S (S (calls w)))))) as [e4|] eqn:Hset; simpl;
    [reflexivity|].
  destruct (fault E (S (S (S (S (S (calls w))))))) as [e5|] eqn:Hupd; simpl;
    [reflexivity|].
  match goal with
  | |- context [match ?x !! Ref_ID doc with _ => _ end] =>
      destruct (x !! Ref_ID doc) as [m|] eqn:Hm
  end; simpl; reflexivity.
Qed.

(** Run without interruption from its [mu.Lock()], the steps of the monitor
    are one tick. *)
Lemma monitorRun_monitorTick (E : Env) (ping poll : string) (w : World) :
  mu w = false →
  let r := monitorTick E ping poll w in
  monitorRun E ping poll 9 MLock w =
    (match r.1 with
     | Next _ => MSelect
     | Return err => MReturned err
     | Block => MLock
     end, r.2).
Proof.
  intros Hmu. unfold monitorRun, monitorStep, exec, mbind, option_bind.
  unfold_go. unfold Collection, idleDue, pollUpdateDue. simpl.
  rewrite Hmu. simpl.
  destruct (fault E (S (calls w))) as [e1|] eqn:Hget; simpl; [reflexivity|].
  destruct (fault E (S (S (calls w)))) as [e2|] eqn:Hdec; simpl; [reflexivity|].
  destruct (_ && _); simpl.
  - destruct (fault E (S (S (S (calls w))))) as [e3|] eqn:Hgen; simpl;
      [reflexivity|].
    destruct (fault E (S (S (S (S (S (calls w))))))) as [e5|] eqn:Hset; simpl;
      reflexivity.
  - destruct (_ >=? _); simpl; [|reflexivity].
    destruct (fault E (S (S (S (calls w))))) as [e3|] eqn:Hgen; simpl;
      [reflexivity|].
    destruct (fault E (S (S (S (S (S (calls w))))))) as [e5|] eqn:Hset; simpl;
      reflexivity.
Qed.

(** A worker that does not hold the mutex, while the other one does, only
    moves outside its critical section, and its step neither reads nor
    writes the package variables: it is the same step whatever they hold. *)
Lemma listenerStep_outside (E : Env) (user ping : string)
    (pc pc' : ListenerPc) (w w' : World) :
  listenerHolds pc = false →
  mu w = true →
  listenerStep E user ping pc w = Some (pc', w') →
  listenerHolds pc' = false ∧
  shared w' = shared w ∧
  ∀ u s r,
    listenerStep E user ping pc
      (set_lastUserMessage u (set_conversationSummary s (set_lastResponseTime r w)))
    = Some (pc', set_lastUserMessage u
                   (set_conversationSummary s (set_lastResponseTime r w'))).
Proof.
  intros Hout Hmu Hstep. destruct pc; try discriminate; simpl in Hstep.
  - unfold exec, mbind, option_bind in *. unfold_go_in Hstep. simpl in *.
    unfold_go. simpl. destruct (fault E (calls w)); simplify_eq; done.
  - unfold exec, mbind, option_bind, mu_Lock in *. rewrite Hmu in Hstep. done.
Qed.

Lemma monitorStep_outside (E : Env) (ping poll : string)
    (pc : MonitorPc) (w : World) :
  monitorHolds pc = false →
  mu w = true →
  monitorStep E ping poll pc w = None.
Proof.
  intros Hout Hmu. destruct pc; try discriminate; simpl; [done | | done].
  unfold exec, mbind, option_bind, mu_Lock. by rewrite Hmu.
Qed.

(** C9. The two workers run side by side, one statement at a time in any
    interleaving, from a state in which both are outside their critical
    sections and the mutex is free.  Then at every moment at most one of
    them is between its [mu.Lock()] and its [mu.Unlock()], and the mutex is
    held exactly then.  While a message is being handled (lines 178-208) the
    monitor can only see its ticker fire and then waits at line 232, which
    leaves the world untouched; while a tick runs (lines 233-273) the
    listener can only receive and decode the next document, a step that does
    not depend on the package variables and does not change them, so
    messages are handled one at a time, each in its own critical section.
    A critical section that runs without interruption is one round of the
    listener's inner loop, or one tick of the monitor. *)
Theorem mutex_serialises_workers (E : Env) (user ping poll : string)
    (c0 c : Config) :
  listener c0 = LIdle →
  monitor c0 = MSelect →
  mu (world c0) = false →
  rtc (anyStep E user ping poll) c0 c →
  (listenerHolds (listener c) && monitorHolds (monitor c) = false ∧
   mu (world c) = listenerHolds (listener c) || monitorHolds (monitor c)) ∧
  (listenerHolds (listener c) = true →
   ∀ c', workerStep E user ping poll MonitorWorker c c' →
         monitor c = MSelect ∧ monitor c' = MLock ∧ world c' = world c) ∧
  (monitorHolds (monitor c) = true →
   ∀ c', workerStep E user ping poll MessageWorker c c' →
         listenerHolds (listener c') = false ∧
         shared (world c') = shared (world c) ∧
         ∀ v, workerStep E user ping poll MessageWorker
                (overwrite v c) (overwrite v c')) ∧
  (∀ (doc : DocumentSnapshot) (w : World),
      mu w = false →
      let r := handleDocument E user ping doc w in
      listenerRun E user ping 9 (LDecode doc) w =
        (match r.1 with
         | Next _ => LIdle
         | Return err => LReturned err
         | Block => LLock doc
         end, r.2)) ∧
  (∀ w : World,
      mu w = false →
      let r := monitorTick E ping poll w in
      monitorRun E ping poll 9 MLock w =
        (match r.1 with
         | Next _ => MSelect
         | Return err => MReturned err
         | Block => MLock
         end, r.2)).
Proof.
  intros Hl0 Hm0 Hmu0 Hrun.
  assert (Hex0 : exclusive c0).
  { unfold exclusive. by rewrite Hl0, Hm0, Hmu0. }
  destruct (exclusive_reachable E user ping poll c0 c Hex0 Hrun) as [Hmu Hex].
  split; [done|]. split; [|split; [|split]].
  - intros Hholds c' Hstep.
    rewrite Hholds in Hmu, Hex. simpl in Hmu, Hex.
    inversion Hstep as [| |c1 Hpc|c1 pc' w' Hmon]; subst; simpl.
    + done.
    + by rewrite (monitorStep_outside E ping poll _ _ Hex Hmu) in Hmon.
  - intros Hholds c' Hstep.
    rewrite Hholds in Hmu, Hex. rewrite orb_true_r in Hmu.
    rewrite andb_true_r in Hex.
    inversion Hstep as [c1 doc Hpc|c1 pc' w' Hlis| |]; subst; simpl.
    + split; [done|]. split; [done|]. intros v.
      by apply (document_arrives E user ping poll (overwrite v c) doc).
    + destruct (listenerStep_outside E user ping _ _ _ _ Hex Hmu Hlis)
        as (Hout & Hshared & Hsame).
      split; [done|]. split; [done|]. intros [[u s] r].
      apply (listener_moves E user ping poll (overwrite (u, s, r) c) pc').
      apply Hsame.
  - intros doc w Hw. by apply listenerRun_handleDocument.
  - intros w Hw. by apply monitorRun_monitorTick.
Qed.

(** * Concrete runs *)

Lemma quiet_fair : fair quiet.
Proof. split; intros; reflexivity. Defined.


Lemma quiet_monotone : monotone quiet.
Proof. intros i j Hij. simpl. unfold time.Second. nia. Defined.

(** The tick of the specification's priority example: the last user message is 40s
    old and the last response 20s old, so both branches are due. *)
Lemma idle_prompt_has_priority_witness :
  let w := world_at 40 20 inbox in
  let r := monitorTick quiet pingCollection pollCollection w in
  time.Sub (now quiet 0) (lastUserMessage w) = 40 * time.Second ∧
  time.Sub (now quiet 0) (lastResponseTime w) = 20 * time.Second ∧
  r.1 = Next tt ∧
  lastResponseTime r.2 = now quiet 0 ∧
  ∃ rest, events r.2 =
            Generate "prompt" (conversationSummary r.2) None :: rest ∧
          ∀ e, e ∈ rest → ∃ data err, e = DocSet pingCollection "host-prompt" data err.
Proof.
  intros w r. split; [reflexivity|]. split; [reflexivity|].
  destruct (idle_prompt_has_priority quiet pingCollection pollCollection w)
    as (o & w' & rest & Hrun & Hev & Hrest & Hok);
    [reflexivity | reflexivity | reflexivity | reflexivity | by vm_compute |].
  destruct (Hok eq_refl eq_refl) as (Ho & _ & Hresp).
  subst r. rewrite Hrun. simpl. split; [done|]. split; [done|].
  exists rest. split; [exact Hev | exact Hrest].
Defined.

(** The tick of the specification's boundary example: the last user message is 10s
    old and the last response exactly 15s old. *)
Lemma poll_update_threshold_witness :
  let w := world_at 10 15 inbox in
  let r := monitorTick quiet pingCollection pollCollection w in
  time.Sub (now quiet 0) (lastUserMessage w) = 10 * time.Second ∧
  time.Sub (now quiet 0) (lastResponseTime w) = 15 * time.Second ∧
  r.1 = Next tt ∧
  lastResponseTime r.2 = now quiet 0 ∧
  ∃ pollSummary rest,
    events r.2 =
      Generate "poll-update" ("Poll update: " +:+ pollSummary) None :: rest.
Proof.
  intros w r. split; [reflexivity|]. split; [reflexivity|].
  destruct (poll_update_threshold quiet pingCollection pollCollection w)
    as (o & w' & pollSummary & Hrun & Hsum & Hdue & Hquiet);
    [reflexivity | reflexivity | reflexivity | |].
  { intros [Hidle _]. by vm_compute in Hidle. }
  destruct Hdue as (rest & Hev & _ & Hok); [by vm_compute|].
  destruct (Hok eq_refl eq_refl) as (Ho & _ & Hresp).
  subst r. rewrite Hrun. simpl. split; [done|]. split; [done|].
  exists pollSummary, rest. exact Hev.
Defined.

(** Just below the boundary, at 14.99s, the same tick emits nothing. *)
Example poll_update_below_threshold :
  let w := {| store := inbox;
              lastUserMessage := 90 * time.Second;
              conversationSummary := "";
              lastResponseTime := 100 * time.Second - 14990000000;
              mu := false; calls := 0; events := [] |} in
  let r := monitorTick quiet pingCollection pollCollection w in
  r.1 = Next tt ∧ events r.2 = [] ∧ store r.2 = store w ∧
  lastResponseTime r.2 = lastResponseTime w.
Proof. vm_compute. done. Qed.

(** The first tick of a process started in 2024: the timestamps are still
    zero, [Sub] saturates, and the monitor emits the idle prompt. *)
Example first_tick_emits_idle_prompt :
  let r := monitorTick year2024 pingCollection pollCollection (initial inbox) in
  time.Sub (now year2024 0) time.zero = time.maxDuration ∧
  r.1 = Next tt ∧
  lastResponseTime r.2 = now year2024 0 ∧
  match events r.2 with
  | [Generate "prompt" _ None; DocSet _ "host-prompt" _ None] => True
  | _ => False
  end.
Proof. vm_compute. done. Qed.

(** A process that starts at second 100 with an empty summary and zero
    timestamps: a tick, then the handling of m1, then a second tick. *)
Lemma timestamps_are_monotone_witness :
  let w0 := initial inbox in
  let earlier := [Tick pingCollection pollCollection] in
  let later := [Elsewhere inbox;
                HandleMessage userCollection pingCollection m1;
                Tick pingCollection pollCollection] in
  lastUserMessage (run quiet earlier w0)
    ≤ lastUserMessage (run quiet (earlier ++ later) w0) ∧
  lastResponseTime (run quiet earlier w0)
    ≤ lastResponseTime (run quiet (earlier ++ later) w0) ∧
  conversationSummary (run quiet ([] ++ earlier) w0)
    = tickSummary quiet pollCollection (run quiet [] w0).
Proof.
  intros w0 earlier later.
  destruct (timestamps_are_monotone quiet w0) as (Hmono & Hsummary & _);
    [exact quiet_monotone | reflexivity | by vm_compute | by vm_compute |].
  destruct (Hmono earlier later) as [Hu Hr].
  destruct (Hsummary [] pingCollection pollCollection) as [Hok _].
  split; [exact Hu|]. split; [exact Hr|]. apply Hok; reflexivity.
Defined.



(** A listener that handles one snapshot holding m1 and then meets the
    deadline on its next call of the subscription (external call 12). *)
Lemma timeout_ends_listener_cleanly_witness :
  let e := StatusError codes.DeadlineExceeded "context deadline exceeded" in
  let E := failing 12 e in
  let w := world_at 40 20 inbox in
  (listenForNewUserMessages (R:=unit) E [[m1]] serviceAccountPath userCollection
     pingCollection w).1 = Next None.
Proof.
  intros e E w.
  destruct (rounds E userCollection pingCollection [[m1]]
              (set_calls 2 w)) as [w1|] eqn:Hrounds; [|by vm_compute in Hrounds].
  destruct (timeout_ends_listener_cleanly (R:=unit) E [[m1]] [] serviceAccountPath
              userCollection pingCollection w w1 e) as [Htimeout _].
  - reflexivity.
  - reflexivity.
  - exact Hrounds.
  - vm_compute in Hrounds. injection Hrounds as <-. reflexivity.
  - rewrite app_nil_r in Htimeout. by rewrite Htimeout.
Defined.

(** The summary of [poll1], in which option A has the voters a, b, a. *)
Lemma poll_summary_counts_voters_witness :
  let w := world_at 40 20 inbox in
  let line (opt : PollOption) :=
    Label opt +:+ " - " +:+ OpText opt +:+ ": "
    +:+ pretty (length (Voters opt)) +:+ " votes" +:+ nl in
  ∃ (opts : list PollOption) (w' : World),
    opts ≡ₚ (map_to_list (Options poll1)).*2 ∧
    fetchPollStatus (R:=unit) quiet pollCollection w =
      (Next ("Question: " +:+ Question poll1 +:+ nl +:+ joinLines (line <$> opts),
             None), w').
Proof.
  intros w line.
  destruct (poll_summary_counts_voters (R:=unit) quiet pollCollection w)
    as [Hsummary _]; [apply quiet_fair | reflexivity | reflexivity |].
  exact Hsummary.
Defined.

Example poll_summary_of_poll1 :
  (fetchPollStatus (R:=unit) quiet pollCollection (world_at 40 20 inbox)).1 =
    Next ("Question: Best language?" +:+ nl +:+
          "A - Go: 3 votes" +:+ nl +:+
          "B - Rocq: 0 votes" +:+ nl, None).
Proof. vm_compute. reflexivity. Qed.

(** Two drains of the inbox in a row. *)
Lemma drain_is_idempotent_witness :
  let w := world_at 40 20 inbox in
  let w1 := (markExistingMessagesAsProcessed (R:=unit) quiet serviceAccountPath
               userCollection w).2 in
  ∃ (o : Flow unit (option error)) (w2 : World),
    markExistingMessagesAsProcessed quiet serviceAccountPath userCollection w1
      = (o, w2) ∧
    events w2 = events w1 ∧ store w2 = store w1.
Proof.
  intros w w1.
  destruct (drain_is_idempotent quiet quiet serviceAccountPath userCollection w)
    as [Hsecond _]; [apply quiet_fair | apply quiet_fair |].
  apply (Hsecond w1 w1); [|reflexivity].
  subst w1.
  destruct (markExistingMessagesAsProcessed quiet serviceAccountPath
              userCollection w) as [o w1] eqn:Hrun.
  simpl. f_equal.
  assert (Ho : (markExistingMessagesAsProcessed (R:=unit) quiet serviceAccountPath
                  userCollection w).1 = Next None) by (vm_compute; reflexivity).
  rewrite Hrun in Ho. exact Ho.
Defined.

(** A listener in which the generation of the reply to m1 fails (external
    call 6): the last user message time has advanced to the time read under
    the mutex, second 105, and the last response time is still second 80. *)
Lemma handling_error_is_not_rolled_back_witness :
  let e := StatusError codes.Unavailable "model overloaded" in
  let E := failing 6 e in
  let w := world_at 40 20 inbox in
  let r := listenForNewUserMessages (R:=unit) E [[m1]] serviceAccountPath
             userCollection pingCollection w in
  r.1 = Next (Some (Errorf "error generating response"
                      (Errorf "gemini model error" e))) ∧
  ∃ (doc : DocumentSnapshot) (w0 : World),
    lastUserMessage r.2 = now E (1 + calls w0)%nat ∧
    lastResponseTime r.2 = lastResponseTime w0 ∧
    mu r.2 = false.
Proof.
  intros e E w r.
  assert (Hr : r.1 = Next (Some (Errorf "error generating response"
                                   (Errorf "gemini model error" e))))
    by (vm_compute; reflexivity).
  split; [exact Hr|].
  destruct (handling_error_is_not_rolled_back E userCollection pingCollection)
    as [_ Hlisten].
  destruct (Hlisten [[m1]] serviceAccountPath w r.2
              (Errorf "error generating response" (Errorf "gemini model error" e)))
    as (doc & w0 & _ & _ & _ & Hu & Hresp & Hmu).
  - reflexivity.
  - rewrite <- Hr. exact (surjective_pairing r).
  - exists (Errorf "gemini model error" e). by left.
  - exists doc, w0. done.
Defined.

(** A run in which m1 arrives, is decoded and the listener takes the
    mutex: the listener is at line 178 and the monitor can only wait. *)
Lemma mutex_serialises_workers_witness :
  let w := world_at 40 20 inbox in
  let c0 := {| world := w; listener := LIdle; monitor := MSelect |} in
  let c := {| world := set_mu true (set_calls 1 w); listener := L178 m1;
              monitor := MSelect |} in
  rtc (anyStep quiet userCollection pingCollection pollCollection) c0 c ∧
  mu (world c) = true ∧
  ∀ c', workerStep quiet userCollection pingCollection pollCollection
          MonitorWorker c c' →
        monitor c' = MLock ∧ world c' = world c.
Proof.
  intros w c0 c.
  assert (Hrun : rtc (anyStep quiet userCollection pingCollection pollCollection)
                   c0 c).
  { pose (c1 := {| world := w; listener := LDecode m1; monitor := MSelect |}).
    pose (c2 := {| world := set_calls 1 w; listener := LLock m1;
                   monitor := MSelect |}).
    apply (rtc_l _ c0 c1 c).
    { exists MessageWorker.
      exact (document_arrives quiet userCollection pingCollection pollCollection
               c0 m1 eq_refl). }
    apply (rtc_l _ c1 c2 c).
    { exists MessageWorker.
      exact (listener_moves quiet userCollection pingCollection pollCollection
               c1 (LLock m1) (set_calls 1 w) eq_refl). }
    apply (rtc_l _ c2 c c); [|apply rtc_refl].
    exists MessageWorker.
    exact (listener_moves quiet userCollection pingCollection pollCollection
             c2 (L178 m1) (set_mu true (set_calls 1 w)) eq_refl). }
  destruct (mutex_serialises_workers quiet userCollection pingCollection
              pollCollection c0 c) as ((_ & Hmu) & Hhandling & _);
    [reflexivity | reflexivity | reflexivity | exact Hrun |].
  split; [exact Hrun|]. split; [exact Hmu|].
  intros c' Hstep. destruct (Hhandling eq_refl c' Hstep) as (_ & Hpc & Hw).
  done.
Defined.

(** * Further properties of the workers *)

(** ** The mutex is released on every path *)

Lemma snapshotsLoop_mutex (E : Env) (user ping : string) (it : list QuerySnapshot) :
  ∀ (w : World) (o : Flow (option error) (option error)) (w' : World),
    mu w = false →
    snapshotsLoop E user ping it w = (o, w') →
    mu w' = false.
Proof.
  induction it as [|snap it IH]; intros w o w' Hmu;
    rewrite snapshotsLoop_unfold; simpl.
  - destruct (decide _); [by intros [= <- <-]|].
    by destruct (fault E (calls w)); intros [= <- <-].
  - destruct (decide _); [by intros [= <- <-]|].
    destruct (fault E (calls w)); [by intros [= <- <-]|].
    destruct (documentsLoop E user ping snap (set_calls (S (calls w)) w))
      as [o1 w2] eqn:Hdocs.
    destruct (documentsLoop_error E user ping snap (set_calls (S (calls w)) w)
                _ _ Hmu Hdocs) as (Hmu2 & _).
    destruct o1 as [[]|r|]; [by apply IH | by intros [= <- <-] ..].
Qed.

Lemma monitorLoop_mutex (E : Env) (ping poll : string) (ticks : nat) :
  ∀ (w : World) (o : Flow (option error) (option error)) (w' : World),
    mu w = false →
    monitorLoop E ticks ping poll w = (o, w') →
    mu w' = false.
Proof.
  induction ticks as [|ticks IH]; intros w o w' Hmu; simpl.
  - by intros [= <- <-].
  - unfold bind at 1.
    destruct (monitorTick_shared E ping poll w Hmu) as (o1 & w1 & -> & Hmu1 & _).
    destruct o1 as [[]|r|]; [by apply IH | by intros [= <- <-] ..].
Qed.

(** The drain does not touch the package variables or the mutex. *)
Lemma drainLoop_frame (E : Env) (user : string) (iter : list DocumentSnapshot) :
  ∀ (w : World) (o : Flow (option error) unit) (w' : World),
    drainLoop E user iter w = (o, w') →
    shared w' = shared w ∧ mu w' = mu w.
Proof.
  induction iter as [|doc iter IH]; intros w o w';
    rewrite drainLoop_unfold; cbn zeta.
  - by destruct (fault E (calls w)); intros [= <- <-].
  - destruct (fault E (calls w)); [by intros [= <- <-]|].
    destruct (Ref_Update_run (R:=option error) E user (Ref_ID doc)
                (set_calls (S (calls w)) w))
      as (r & w2 & -> & _ & Hu & Hs & Hr & Hmu & _).
    simpl in Hu, Hs, Hr, Hmu.
    destruct r as [e|].
    + intros [= <- <-]. unfold shared. by rewrite Hu, Hs, Hr, Hmu.
    + intros Hloop. destruct (IH _ _ _ Hloop) as [Hsh Hmu'].
      unfold shared in *. simpl in *. by rewrite Hsh, Hmu', Hu, Hs, Hr, Hmu.
Qed.

Lemma markExistingMessagesAsProcessed_frame {R} (E : Env) (sa user : string)
    (w : World) :
  let r := markExistingMessagesAsProcessed (R:=R) E sa user w in
  shared r.2 = shared w ∧ mu r.2 = mu w.
Proof.
  cbn zeta.
  destruct (fault E (calls w)) as [e|] eqn:Happ.
  { assert (Hrun : markExistingMessagesAsProcessed (R:=R) E sa user w =
              (Next (Some (Errorf "error initializing app" e)),
               set_calls (S (calls w)) w)).
    { unfold markExistingMessagesAsProcessed.
      unfold call, bind at 1, library, external, bind at 1, ret. simpl.
      by rewrite Happ. }
    by rewrite Hrun. }
  destruct (fault E (1 + calls w)%nat) as [e|] eqn:Hfs.
  { assert (Hrun : markExistingMessagesAsProcessed (R:=R) E sa user w =
              (Next (Some (Errorf "error initializing Firestore" e)),
               set_calls (S (S (calls w))) w)).
    { unfold markExistingMessagesAsProcessed.
      unfold call, bind at 1, library, external, bind at 1, ret. simpl.
      rewrite Happ. unfold bind at 1. simpl in *. by rewrite Hfs. }
    by rewrite Hrun. }
  rewrite (markExistingMessagesAsProcessed_started E sa user w Happ Hfs).
  destruct (drainLoop E user (backlog E user w) _) as [o w'] eqn:Hloop.
  apply drainLoop_frame in Hloop. by destruct o.
Qed.

(** X3. Started with the mutex free, each of the three worker functions
    leaves it free however it ends: by an error on any path, by the timeout,
    or waiting for the next snapshot or tick.  In particular none of them is
    ever stuck in its own [mu.Lock()]. *)
Theorem mutex_released_on_every_path (E : Env) (it : list QuerySnapshot)
    (ticks : nat) (sa user ping poll : string) (w : World) :
  mu w = false →
  mu (markExistingMessagesAsProcessed (R:=unit) E sa user w).2 = false ∧
  mu (listenForNewUserMessages (R:=unit) E it sa user ping w).2 = false ∧
  mu (monitorAndRespond (R:=unit) E ticks sa user ping poll w).2 = false.
Proof.
  intros Hmu. split; [|split].
  - destruct (markExistingMessagesAsProcessed_frame (R:=unit) E sa user w)
      as [_ Hsame]. by rewrite Hsame.
  - unfold listenForNewUserMessages.
    unfold call, bind at 1, library, external, bind at 1, ret. simpl.
    destruct (fault E (calls w)); [done|]. unfold bind at 1. simpl.
    destruct (fault E (S (calls w))); [done|].
    destruct (snapshotsLoop E user ping it _) as [o w'] eqn:Hloop.
    apply snapshotsLoop_mutex in Hloop; [|done]. by destruct o.
  - unfold monitorAndRespond.
    unfold call, bind at 1, library, external, bind at 1, ret. simpl.
    destruct (fault E (calls w)); [done|]. unfold bind at 1. simpl.
    destruct (fault E (S (calls w))); [done|].
    destruct (monitorLoop E ticks ping poll _) as [o w'] eqn:Hloop.
    apply monitorLoop_mutex in Hloop; [|done]. by destruct o.
Qed.

(** ** One tick, case by case *)

(** Every way in which a tick that takes the mutex can end. *)
Lemma monitorTick_cases (E : Env) (ping poll : string) (w : World) :
  let c := calls w in
  mu w = false →
  ∃ (o : Flow (option error) unit) (w' : World),
    monitorTick E ping poll w = (o, w') ∧
    ((∃ e, fault E (1 + c)%nat = Some e ∧
           o = Return (Some (Errorf "error fetching poll status"
                               (Errorf "error fetching poll document" e))) ∧
           w' = set_calls (2 + c)%nat w) ∨
     (∃ e, fault E (1 + c)%nat = None ∧ fault E (2 + c)%nat = Some e ∧
           o = Return (Some (Errorf "error fetching poll status"
                               (Errorf "error converting document to PollQuestion" e))) ∧
           w' = set_calls (3 + c)%nat w) ∨
     (fault E (1 + c)%nat = None ∧ fault E (2 + c)%nat = None ∧
      tickRequest E poll w = None ∧ o = Next tt ∧
      w' = set_conversationSummary (tickSummary E poll w) (set_calls (3 + c)%nat w)) ∨
     (∃ request e,
         fault E (1 + c)%nat = None ∧ fault E (2 + c)%nat = None ∧
         tickRequest E poll w = Some request ∧
         fault E (3 + c)%nat = Some e ∧
         o = Return (Some (Errorf "error generating prompt"
                             (Errorf "gemini model error" e))) ∧
         w' = emit (Generate request.1 request.2 (Some e))
                (set_conversationSummary (tickSummary E poll w)
                   (set_calls (4 + c)%nat w))) ∨
     (∃ request e,
         fault E (1 + c)%nat = None ∧ fault E (2 + c)%nat = None ∧
         tickRequest E poll w = Some request ∧
         fault E (3 + c)%nat = None ∧ fault E (5 + c)%nat = Some e ∧
         o = Return (Some (Errorf "error writing prompt message" e)) ∧
         w' = emit (DocSet ping "host-prompt" (tickPrompt E w request) (Some e))
                (emit (Generate request.1 request.2 None)
                   (set_conversationSummary (tickSummary E poll w)
                      (set_calls (6 + c)%nat w)))) ∨
     (∃ request,
         fault E (1 + c)%nat = None ∧ fault E (2 + c)%nat = None ∧
         tickRequest E poll w = Some request ∧
         fault E (3 + c)%nat = None ∧ fault E (5 + c)%nat = None ∧
         o = Next tt ∧
         w' = set_lastResponseTime (now E c)
                (emit (DocSet ping "host-prompt" (tickPrompt E w request) None)
                   (emit (Generate request.1 request.2 None)
                      (set_store
                         (<[ping := <["host-prompt" := tickPrompt E w request]>
                                      (Collection ping w)]> (store w))
                         (set_conversationSummary (tickSummary E poll w)
                            (set_calls (6 + c)%nat w))))))).
Proof.
  intros c Hmu. subst c.
  destruct (fault E (1 + calls w)%nat) as [e1|] eqn:Hget.
  { unfold_go. simpl in *. rewrite Hmu. simpl. rewrite Hget. simpl.
    eexists _, _. split; [reflexivity|]. left. exists e1.
    split; [done|]. split; [done|]. destruct w; simpl in *; by subst. }
  destruct (fault E (2 + calls w)%nat) as [e2|] eqn:Hdec.
  { unfold_go. simpl in *. rewrite Hmu. simpl. rewrite Hget. simpl.
    rewrite Hdec. simpl.
    eexists _, _. split; [reflexivity|]. right; left. exists e2.
    split; [done|]. split; [done|]. split; [done|]. destruct w; simpl in *; by subst. }
  assert (Hfetch := fetchPollStatus_fetched (R:=option error) E poll
                      (set_calls (S (calls w)) (set_mu true w)) Hget Hdec).
  cbn zeta in Hfetch.
  unfold monitorTick.
  unfold bind at 1, mu_Lock. rewrite Hmu.
  unfold bind at 1, time_Now, bind at 1, external, ret. cbn [fst snd calls set_mu].
  unfold bind at 1.
  change (set_calls (S (calls w)) (set_mu true w))
    with (set_calls (S (calls (set_mu true w))) (set_mu true w)).
  change (calls (set_mu true w)) with (calls w) at 1.
  rewrite Hfetch. clear Hfetch.
  unfold tickRequest, tickPrompt, tickSummary, tickPollSummary.
  unfold updateConversationSummary, idleDue, pollUpdateDue.
  unfold_go. unfold Collection. simpl.
  destruct (_ && _) eqn:Hidle; simpl.
  - destruct (fault E (S (S (S (calls w))))) as [e3|] eqn:Hgen; simpl.
    { eexists _, _. split; [reflexivity|]. do 3 right. left.
      eexists (_, _), e3. simpl. repeat (split; [done|]). destruct w; simpl in *; by subst. }
    destruct (fault E (S (S (S (S (S (calls w))))))) as [e5|] eqn:Hset; simpl.
    + eexists _, _. split; [reflexivity|]. do 4 right. left.
      eexists (_, _), e5. simpl. repeat (split; [done|]). destruct w; simpl in *; by subst.
    + eexists _, _. split; [reflexivity|]. do 5 right.
      eexists (_, _). simpl. repeat (split; [done|]). destruct w; simpl in *; by subst.
  - destruct (_ >=? 15 * time.Second) eqn:Hdue; simpl.
    + destruct (fault E (S (S (S (calls w))))) as [e3|] eqn:Hgen; simpl.
      { eexists _, _. split; [reflexivity|]. do 3 right. left.
        eexists (_, _), e3. simpl. repeat (split; [done|]). destruct w; simpl in *; by subst. }
      destruct (fault E (S (S (S (S (S (calls w))))))) as [e5|] eqn:Hset; simpl.
      * eexists _, _. split; [reflexivity|]. do 4 right. left.
        eexists (_, _), e5. simpl. repeat (split; [done|]). destruct w; simpl in *; by subst.
      * eexists _, _. split; [reflexivity|]. do 5 right.
        eexists (_, _). simpl. repeat (split; [done|]). destruct w; simpl in *; by subst.
    + eexists _, _. split; [reflexivity|]. do 2 right. left.
      repeat (split; [done|]). destruct w; simpl in *; by subst.
Qed.
